(** * sanic: the build logger and the local cluster health check

    A shallow embedding of
      - [pkg/build/build_logger.go]: the flat-file logger of build events
        ([flatfileLogger], [Log], [logStatus], [ProcessStatus],
        [humanReadableBytes]);
      - the [localdev] provisioner: [checkCluster] and [checkClusterReady];
      - the completion of the [env] command:
        [environmentCommandAutocomplete].

    Go strings are byte strings: they are modelled by [string], whose
    characters are the 256 [ascii] values.  Go's [int64] is modelled by [Z].
    The logger's mutex is not modelled: the operations are run one at a
    time. *)

From Stdlib Require Import ZArith String Ascii List Lia Bool.
From Stdlib Require Import Numbers.DecimalString.
From stdpp Require Import base option list gmap strings sorting.

Local Open Scope string_scope.

(** ** The parts of Go's [strings] package that the code uses *)

Module GoStrings.

(** [strings.HasPrefix(s, p)] *)
Fixpoint HasPrefix (s p : string) {struct p} : bool :=
  match p, s with
  | EmptyString, _ => true
  | String _ _, EmptyString => false
  | String b p', String a s' => if Ascii.eqb a b then HasPrefix s' p' else false
  end.

(** [s[n:]] for [n <= len(s)] *)
Fixpoint skip (n : nat) (s : string) : string :=
  match n, s with
  | O, _ => s
  | S n', String _ s' => skip n' s'
  | S _, EmptyString => EmptyString
  end.

(** [s[:n]] for [n <= len(s)] *)
Fixpoint keep (n : nat) (s : string) : string :=
  match n, s with
  | O, _ => EmptyString
  | S n', String a s' => String a (keep n' s')
  | S _, EmptyString => EmptyString
  end.

(** The slice expression [s[lo:hi]].  Go panics at run time unless
    [lo <= hi <= len(s)]; [None] stands for that panic. *)
Definition slice (s : string) (lo hi : nat) : option string :=
  if (lo <=? hi)%nat && (hi <=? String.length s)%nat
  then Some (keep (hi - lo) (skip lo s))
  else None.

(** [strings.Index(s, sep)] for a non-empty [sep]: the byte offset of the
    first occurrence of [sep] in [s], [-1] when there is none. *)
Fixpoint Index (s sep : string) : Z :=
  if HasPrefix s sep then 0%Z
  else match s with
       | EmptyString => (-1)%Z
       | String _ s' =>
           let i := Index s' sep in
           if (i <? 0)%Z then (-1)%Z else (i + 1)%Z
       end.

(** membership of a byte in a cutset *)
Fixpoint inCutset (c : ascii) (cutset : string) : bool :=
  match cutset with
  | EmptyString => false
  | String d cs => Ascii.eqb c d || inCutset c cs
  end.

(** [strings.TrimLeft(s, cutset)] *)
Fixpoint TrimLeft (s cutset : string) : string :=
  match s with
  | EmptyString => EmptyString
  | String a s' => if inCutset a cutset then TrimLeft s' cutset else s
  end.

(** [strings.TrimRight(s, cutset)] *)
Fixpoint TrimRight (s cutset : string) : string :=
  match s with
  | EmptyString => EmptyString
  | String a s' =>
      match TrimRight s' cutset with
      | EmptyString => if inCutset a cutset then EmptyString else String a EmptyString
      | t => String a t
      end
  end.

(** [strings.Trim(s, cutset)]: all leading and all trailing bytes of [s]
    that are in [cutset] are removed. *)
Definition Trim (s cutset : string) : string :=
  TrimRight (TrimLeft s cutset) cutset.

(** [strings.Join] with the empty separator *)
Definition Join (l : list string) : string :=
  fold_right String.append EmptyString l.

(** [strings.Split(s, sep)] for a one-byte separator: the fields between
    the occurrences of the separator, at least one field. *)
Fixpoint Split (s : string) (sep : ascii) : list string :=
  match s with
  | EmptyString => [EmptyString]
  | String a s' =>
      if Ascii.eqb a sep then EmptyString :: Split s' sep
      else match Split s' sep with
           | f :: fs => String a f :: fs
           | [] => [String a EmptyString]
           end
  end.

(** The white space of [strings.TrimSpace] on ASCII input:
    tab, line feed, vertical tab, form feed, carriage return, space. *)
Definition asciiSpace : string :=
  String (ascii_of_nat 9) (String (ascii_of_nat 10) (String (ascii_of_nat 11)
 (String (ascii_of_nat 12) (String (ascii_of_nat 13) (String (ascii_of_nat 32)
  EmptyString))))).

Definition TrimSpace (s : string) : string := Trim s asciiSpace.

End GoStrings.

(** Every byte of [s] is in the cutset; [s] starts with, ends with a byte
    of the cutset. *)
Fixpoint allIn (cutset s : string) : bool :=
  match s with
  | EmptyString => true
  | String a s' => GoStrings.inCutset a cutset && allIn cutset s'
  end.

Definition startsIn (cutset s : string) : bool :=
  match s with
  | EmptyString => false
  | String a _ => GoStrings.inCutset a cutset
  end.

Fixpoint endsIn (cutset s : string) : bool :=
  match s with
  | EmptyString => false
  | String a EmptyString => GoStrings.inCutset a cutset
  | String _ s' => endsIn cutset s'
  end.

(** Carriage return and line feed, the cutset ["\r\n"] of the logger. *)
Definition CR : ascii := ascii_of_nat 13.
Definition LF : ascii := ascii_of_nat 10.
Definition crlf : string := String CR (String LF EmptyString).
Definition nl : string := String LF EmptyString.

(** The number of lines of a text that ends its lines with a line feed *)
Fixpoint lineCount (s : string) : nat :=
  match s with
  | EmptyString => 0
  | String a s' => (if Ascii.eqb a LF then 1 else 0) + lineCount s'
  end.

(** The number of occurrences of a byte in a text *)
Fixpoint occurrences (c : ascii) (s : string) : nat :=
  match s with
  | EmptyString => 0
  | String a s' => (if Ascii.eqb a c then 1 else 0) + occurrences c s'
  end.

(** [%d] of an integer *)
Definition fmt_d (z : Z) : string := NilZero.string_of_int (Z.to_int z).

(** ** Go's [float64] arithmetic, as far as [humanReadableBytes] uses it

    Every [float64] that [humanReadableBytes] computes is a dyadic rational
    [n / 2^k] between [2^-63] and [2^63] in absolute value whose numerator
    has at most 53 significant bits, so it is represented exactly here: an
    integral float by the integer [n], a quotient by numerator and
    denominator.  The only rounding is the conversion [float64(bytes)],
    written out in [float64_of_int64]. *)

Module Float64.
Local Open Scope Z_scope.

(** [float64(z)] for an [int64] [z]: the nearest number with a 53-bit
    significand, ties to the even significand.  The result is an integer. *)
Definition float64_of_int64 (z : Z) : Z :=
  let a := Z.abs z in
  let e := Z.log2 a in
  if e <? 53 then z
  else
    let sh := e - 52 in
    let q := Z.shiftr a sh in
    let r := Z.land a (Z.ones sh) in
    let half := Z.shiftl 1 (sh - 1) in
    let q' := if r <? half then q
              else if half <? r then q + 1
              else if Z.even q then q else q + 1 in
    Z.sgn z * Z.shiftl q' sh.

(** [math.Logb(math.Abs(f))] of a non-zero integral float: its binary
    exponent. *)
Definition Logb (f : Z) : Z := Z.log2 (Z.abs f).

Definition digit (n : Z) : ascii := ascii_of_nat (48 + Z.to_nat n).

(** The number of hundredths that [%.2f] shows for [|n| / d], [d > 0]: the
    exact quotient rounded to the nearest hundredth, ties to the even one. *)
Definition hundredths (n d : Z) : Z :=
  let a := 100 * Z.abs n in
  let q := a / d in
  let r := a mod d in
  if 2 * r <? d then q
  else if d <? 2 * r then q + 1
  else if Z.even q then q else q + 1.

(** [fmt.Sprintf("%.2f", n / d)] for [d > 0] and a quotient that does not
    round to zero: the sign, the integer part, a point and two digits. *)
Definition fmt_2f (n d : Z) : string :=
  let h := hundredths n d in
  (if n <? 0 then "-" else EmptyString)
    +:+ fmt_d (h / 100) +:+ "."
    +:+ String (digit (h mod 100 / 10)) (String (digit (h mod 10)) EmptyString).
End Float64.

(** ** [pkg/build/build_logger.go] *)

Module Build.
Import GoStrings Float64.

Definition suf : list string := ["B"; "KB"; "MB"; "GB"; "TB"; "PB"; "EB"].

(** The index [int64(place)] of the unit: [place] is the binary exponent
    divided by ten; as the exponent is a natural number below 64, both
    [math.Floor(place)] and the conversion [int64(place)] are the integer
    quotient. *)
Definition unitIndex (bytes : Z) : Z :=
  (Logb (float64_of_int64 bytes) / 10)%Z.

(** [humanReadableBytes] (lines 92-99).  [suf[int64(place)]] is in range
    for every [int64] (see [unitIndex_range]); the default of [nth] is
    never used. *)
Definition humanReadableBytes (bytes : Z) : string :=
  if (bytes =? 0)%Z then "0" +:+ nth 0 suf EmptyString
  else
    let k := unitIndex bytes in
    fmt_2f (float64_of_int64 bytes) (1024 ^ k) +:+ nth (Z.to_nat k) suf EmptyString.

(** The short id of [logStatus] (lines 110-115); [None] is the run-time
    panic of the slice expression [status.ID[7:19]]. *)
Definition shortID (id : string) : option string :=
  if HasPrefix id "sha256:" then slice id 7 19 else Some id.


(** *** Files

    An [*os.File] opened with [O_WRONLY|O_CREATE|O_TRUNC] (no [O_APPEND]):
    the bytes of the file, the offset of the handle, and whether the
    handle was closed.  A write puts the bytes at the offset, over what is
    there, and extends the file when it goes past its end; it never
    shortens the file. *)

Record File := mkFile { data : string; offset : nat; closed : bool }.

Definition newFile : File := mkFile EmptyString 0 false.

(** Errors: those of the [os] package, named by the failing operation and
    the service whose file it is, and those built with [errors.Errorf]
    around the text of another error. *)
Inductive error :=
| OsError (op service : string)
| Errorf (format service : string) (cause : error).

Fixpoint zeros (n : nat) : string :=
  match n with O => EmptyString | S n' => String zero (zeros n') end.

(** The bytes of a file after [s] is written at offset [pos]. *)
Definition overwrite (d : string) (pos : nat) (s : string) : string :=
  match s with
  | EmptyString => d
  | _ => keep pos d +:+ zeros (pos - String.length d) +:+ s
           +:+ skip (pos + String.length s) d
  end.

(** [f.WriteString(s)]: the file, the number of bytes written, the error *)
Definition WriteString (service : string) (f : File) (s : string)
  : File * nat * option error :=
  if closed f then (f, 0, Some (OsError "write" service))
  else (mkFile (overwrite (data f) (offset f) s)
               (offset f + String.length s) false,
        String.length s, None).

(** [f.Seek(delta, io.SeekCurrent)] *)
Definition SeekCurrent (service : string) (f : File) (delta : Z)
  : File * option error :=
  if closed f then (f, Some (OsError "seek" service))
  else
    let p := (Z.of_nat (offset f) + delta)%Z in
    if (p <? 0)%Z then (f, Some (OsError "seek" service))
    else (mkFile (data f) (Z.to_nat p) false, None).

(** The two regions of a log file: the permanent region is what lies before
    the offset of the handle, the tail is what lies from the offset on. *)
Definition permanent (f : File) : string := keep (offset f) (data f).
Definition tail (f : File) : string := skip (offset f) (data f).

(** A handle on which writes succeed: it is open, and its offset is within
    the file. *)
Definition writable (f : File) : Prop :=
  closed f = false /\ offset f <= String.length (data f).

(** *** The rendered status block

    [s[strings.Index(s, "]")+2:]], the text of a status line after its
    date.  The code applies it to lines ["[" date "] " text "\n"] only,
    where the slice is in range, as is proved below. *)
Definition afterDate (s : string) : string :=
  skip (Z.to_nat (Index s "]" + 2)) s.

(** The order of [sort.Slice]: [less i j] is [afterDate] of line [i]
    being below that of line [j], as byte strings.  [statusLe a b] is
    [less b a] being false. *)
Definition statusLe (a b : string) : Prop :=
  String.leb (afterDate a) (afterDate b) = true.

#[global] Instance statusLe_dec a b : Decision (statusLe a b).
Proof. unfold statusLe. apply _. Defined.

(** Lines 131-139: the values of the map, each with a line feed, sorted.
    Go leaves the order of the iteration over a map and the order that
    [sort.Slice] gives to lines with equal keys unspecified; here the
    iteration is in the order of [map_to_list] and the sort is a merge
    sort. *)
Definition renderStatuses (m : gmap string string) : list string :=
  merge_sort statusLe (map (fun s => s +:+ nl) (map snd (map_to_list m))).

(** *** The events of [client.SolveStatus]

    Only the fields that the logger reads.  A digest is a string
    ([Digest.String()] is the conversion). *)

Section Logger.
Context {Time : Type}.

(** [fmt]'s [%s] of [t.In(time.Local)] *)
Variable timeString : Time -> string.
(** the successive readings of [time.Now()] *)
Variable wallClock : nat -> Time.
(** whether [os.MkdirAll] and [os.OpenFile] succeed for a service *)
Variable canOpen : string -> bool.

Record Vertex := mkVertex {
  v_Name : string; v_Digest : string; v_Cached : bool; v_Error : string }.

Record VertexStatus := mkVertexStatus {
  vs_ID : string; vs_Name : string; vs_Vertex : string;
  vs_Current : Z; vs_Total : Z;
  vs_Timestamp : Time; vs_Completed : option Time }.

Record VertexLog := mkVertexLog {
  l_Vertex : string; l_Data : string; l_Timestamp : Time }.

Record SolveStatus := mkSolveStatus {
  Vertexes : list Vertex; Statuses : list VertexStatus;
  Logs : list VertexLog }.

(** *** The logger

    A listener is a callback [func(service, logLine string)]; it is
    modelled by a number that names it, and calling it by a record of
    the call in [heard].  [currVertexStatuses] is one map for the whole
    logger, keyed by status id. *)

Record flatfileLogger := mkLogger {
  currVertexStatuses : gmap string string;
  openFiles : gmap string File;
  logLineListeners : list nat;
  verbose : bool;
  (** the calls of listeners so far, oldest first *)
  heard : list (nat * string * string);
  (** the number of readings of [time.Now()] so far *)
  ticks : nat }.

Definition NewFlatfileLogger (verbose : bool) : flatfileLogger :=
  mkLogger ∅ ∅ [] verbose [] 0.

Definition setFiles (fs : gmap string File) (l : flatfileLogger) :=
  mkLogger (currVertexStatuses l) fs (logLineListeners l) (verbose l)
           (heard l) (ticks l).

Definition setStatuses (m : gmap string string) (l : flatfileLogger) :=
  mkLogger m (openFiles l) (logLineListeners l) (verbose l)
           (heard l) (ticks l).

(** [AddLogLineListener] (lines 214-216) *)
Definition AddLogLineListener (listener : nat) (l : flatfileLogger) :=
  mkLogger (currVertexStatuses l) (openFiles l)
           (logLineListeners l ++ [listener]) (verbose l)
           (heard l) (ticks l).

(** [for _, listener := range logger.logLineListeners { listener(service, line) }] *)
Definition notify (service line : string) (l : flatfileLogger) :=
  mkLogger (currVertexStatuses l) (openFiles l) (logLineListeners l)
           (verbose l)
           (heard l ++ map (fun i => (i, service, line)) (logLineListeners l))
           (ticks l).

(** [time.Now()] *)
Definition Now (l : flatfileLogger) : Time * flatfileLogger :=
  (wallClock (ticks l),
   mkLogger (currVertexStatuses l) (openFiles l) (logLineListeners l)
            (verbose l) (heard l) (S (ticks l))).

(** [Close] (lines 205-212): every file is closed, and stays in
    [openFiles]. *)
Definition Close (l : flatfileLogger) : flatfileLogger :=
  setFiles ((fun f => mkFile (data f) (offset f) true) <$> openFiles l) l.

(** [logFile] (lines 45-71): the handle of the service's file, opened
    and truncated at its first use.  The handle is the service's entry
    of [openFiles]. *)
Definition logFile (service : string) (l : flatfileLogger)
  : flatfileLogger * option error :=
  match openFiles l !! service with
  | Some _ => (l, None)
  | None =>
      if canOpen service
      then (setFiles (<[service := newFile]> (openFiles l)) l, None)
      else (l, Some (OsError "open" service))
  end.

(** [f.WriteString(s)] on the file of a service that [logFile] gave *)
Definition writeFile (service s : string) (l : flatfileLogger)
  : flatfileLogger * nat * option error :=
  match openFiles l !! service with
  | Some f =>
      let '(f', n, err) := WriteString service f s in
      (setFiles (<[service := f']> (openFiles l)) l, n, err)
  | None => (l, 0, Some (OsError "write" service))
  end.

Definition seekFile (service : string) (delta : Z) (l : flatfileLogger)
  : flatfileLogger * option error :=
  match openFiles l !! service with
  | Some f =>
      let '(f', err) := SeekCurrent service f delta in
      (setFiles (<[service := f']> (openFiles l)) l, err)
  | None => (l, Some (OsError "seek" service))
  end.

(** The text of a permanent line *)
Definition logLine (when : Time) (messageString : string) : string :=
  "[" +:+ timeString when +:+ "] " +:+ messageString +:+ nl.

(** [Log] (lines 73-90).  Every caller passes one string as [message],
    of which [fmt.Sprint] is the string itself.  The listeners are
    called before the error of the write is looked at. *)
Definition Log (service : string) (when : Time) (message : string)
           (l : flatfileLogger) : flatfileLogger * option error :=
  match logFile service l with
  | (l1, Some err) => (l1, Some err)
  | (l1, None) =>
      let messageString := Trim message crlf in
      let '(l2, _, err) := writeFile service (logLine when messageString) l1 in
      let l3 := notify service (messageString +:+ nl) l2 in
      (l3, err)
  end.

(** What an operation that can panic gives: it returns, with Go's
    [error] result ([None] is [nil]), or it panics. *)
Inductive outcome :=
| Returned (l : flatfileLogger) (err : option error)
| Panicked (l : flatfileLogger).

(** Lines 117-122 *)
Definition statusTextOf (idText : string) (status : VertexStatus) : string :=
  if negb (vs_Total status =? 0)%Z
  then idText +:+ " " +:+ humanReadableBytes (vs_Current status)
         +:+ "/" +:+ humanReadableBytes (vs_Total status)
  else idText +:+ " " +:+ humanReadableBytes (vs_Current status).

(** Line 123 *)
Definition statusLine (when : Time) (statusText : string) : string :=
  "[" +:+ timeString when +:+ "] " +:+ statusText.

(** Lines 125-130 of [logStatus]: a completion takes the id out of the map
    and writes its line; any other event puts its line in the map.  The
    error of the write is overwritten by that of line 140. *)
Definition updateStatuses (service : string) (status : VertexStatus)
           (statusTextTimestamp : string) (l : flatfileLogger)
  : flatfileLogger :=
  match vs_Completed status with
  | Some _ =>
      (writeFile service (statusTextTimestamp +:+ nl)
         (setStatuses (delete (vs_ID status) (currVertexStatuses l)) l)).1.1
  | None =>
      setStatuses
        (<[vs_ID status := statusTextTimestamp]> (currVertexStatuses l)) l
  end.

(** Lines 131-155 of [logStatus]: the block is rendered from the map and
    written, the handle is moved back over it, and the listeners are told
    the last line of the block. *)
Definition rewriteBlock (service statusText : string) (l : flatfileLogger)
  : outcome :=
  let statuses := renderStatuses (currVertexStatuses l) in
  let '(l3, written, err) := writeFile service (Join statuses) l in
  match err with
  | Some e => Returned l3 (Some e)
  | None =>
      let '(l4, err) := seekFile service (- Z.of_nat written) l3 in
      match err with
      | Some e => Returned l4 (Some e)
      | None =>
          let statusText' :=
            fold_left (fun _ s => afterDate s) statuses statusText in
          Returned (notify service (statusText' +:+ nl) l4) None
      end
  end.

(** [logStatus] (lines 101-156) *)
Definition logStatus (service : string) (status : VertexStatus)
           (l : flatfileLogger) : outcome :=
  match logFile service l with
  | (l1, Some err) => Returned l1 (Some err)
  | (l1, None) =>
      match shortID (vs_ID status) with
      | None => Panicked l1
      | Some idText =>
          let statusText := statusTextOf idText status in
          let statusTextTimestamp :=
            statusLine (vs_Timestamp status) statusText in
          rewriteBlock service statusText
            (updateStatuses service status statusTextTimestamp l1)
      end
  end.

(** A [for ... range] loop whose body can return from the function
    with an error. *)
Fixpoint forEach {A : Type} (body : A -> flatfileLogger -> outcome)
         (xs : list A) (l : flatfileLogger) : outcome :=
  match xs with
  | [] => Returned l None
  | x :: xs' =>
      match body x l with
      | Returned l' None => forEach body xs' l'
      | o => o
      end
  end.

(** [logger.Log(service, time.Now(), message)] *)
Definition LogNow (service message : string) (l : flatfileLogger)
  : flatfileLogger * option error :=
  let '(when, l') := Now l in Log service when message l'.

(** [if err := ...; err != nil { return errors.Errorf(format, service, err.Error()) }] *)
Definition orReturn (format service : string)
           (r : flatfileLogger * option error)
           (k : flatfileLogger -> outcome) : outcome :=
  match r with
  | (l, Some e) => Returned l (Some (Errorf format service e))
  | (l, None) => k l
  end.

Definition vertexDump (v : Vertex) : string :=
  "Vertex: '" +:+ v_Name v +:+ "',  '" +:+ v_Error v +:+ "',  '"
    +:+ v_Digest v +:+ "'".

Definition statusDump (vs : VertexStatus) : string :=
  "Status: '" +:+ vs_Name vs +:+ "'.  '" +:+ vs_ID vs +:+ "',  '"
    +:+ vs_Vertex vs +:+ "',  (curr=" +:+ fmt_d (vs_Current vs)
    +:+ ", total=" +:+ fmt_d (vs_Total vs) +:+ ")".

Definition logDump (lg : VertexLog) : string :=
  "Log: '" +:+ l_Data lg +:+ "',  '" +:+ l_Vertex lg +:+ "'".

(** The verbose dump: the error of [Log] is dropped. *)
Definition dump (service message : string) (l : flatfileLogger)
  : flatfileLogger :=
  if verbose l then (LogNow service message l).1 else l.

(** The body of the loop of lines 159-177 *)
Definition vertexStep (service : string) (v : Vertex) (l : flatfileLogger)
  : outcome :=
  let l1 := dump service (vertexDump v) l in
  if negb (Index (v_Name v) "[internal]" =? 0)%Z then
    let logMessage :=
      if v_Cached v then "cached: " +:+ v_Name v else v_Name v in
    let k l2 :=
      orReturn "Could not write to %s's logs: %s" service
               (LogNow service logMessage l2)
               (fun l3 => Returned l3 None) in
    if negb (String.eqb (v_Error v) EmptyString) then
      orReturn "Could not log failure to %s's logs: %s" service
               (LogNow service
                  (v_Error v +:+ ": LAYERID=" +:+ v_Digest v) l1)
               k
    else k l1
  else Returned l1 None.

(** The body of the loop of lines 179-191 *)
Definition statusStep (service : string) (vs : VertexStatus)
           (l : flatfileLogger) : outcome :=
  let l1 := dump service (statusDump vs) l in
  match logStatus service vs l1 with
  | Returned l2 (Some e) =>
      Returned l2 (Some (Errorf "Could not status to %s's logs: %s" service e))
  | o => o
  end.

(** The body of the loop of lines 193-201 *)
Definition logStep (service : string) (lg : VertexLog)
           (l : flatfileLogger) : outcome :=
  let l1 := dump service (logDump lg) l in
  orReturn "Could not write to %s's logs: %s" service
           (Log service (l_Timestamp lg) (Trim (l_Data lg) crlf) l1)
           (fun l2 => Returned l2 None).

(** [ProcessStatus] (lines 158-203) *)
Definition ProcessStatus (service : string) (status : SolveStatus)
           (l : flatfileLogger) : outcome :=
  match forEach (vertexStep service) (Vertexes status) l with
  | Returned l1 None =>
      match forEach (statusStep service) (Statuses status) l1 with
      | Returned l2 None => forEach (logStep service) (Logs status) l2
      | o => o
      end
  | o => o
  end.

(** *** Runs of events on one service

    A permanent-line event is a call of [Log]; a status event is a call of
    [logStatus]. *)

Inductive event :=
| EvLog (when : Time) (message : string)
| EvStatus (status : VertexStatus).

Definition step (service : string) (ev : event) (l : flatfileLogger)
  : outcome :=
  match ev with
  | EvLog when message =>
      let '(l', err) := Log service when message l in Returned l' err
  | EvStatus status => logStatus service status l
  end.

Definition runEvents (service : string) : list event -> flatfileLogger -> outcome :=
  forEach (step service).

(** The file of a service; the empty file before it is opened. *)
Definition fileOf (service : string) (l : flatfileLogger) : File :=
  default newFile (openFiles l !! service).

(** The service's file can be written: it is open and [writable], or it is
    not open yet and can be opened. *)
Definition fileReady (service : string) (l : flatfileLogger) : Prop :=
  match openFiles l !! service with
  | Some f => writable f
  | None => canOpen service = true
  end.

(** A status event whose short id can be taken. *)
Definition idInRange (ev : event) : Prop :=
  match ev with
  | EvLog _ _ => True
  | EvStatus status =>
      HasPrefix (vs_ID status) "sha256:" = true ->
      19 <= String.length (vs_ID status)
  end.

Definition completes (status : VertexStatus) : bool :=
  match vs_Completed status with Some _ => true | None => false end.

(** The text of the status line of an event, lines 110-123 *)
Definition statusLineOf (status : VertexStatus) : string :=
  statusLine (vs_Timestamp status)
    (statusTextOf (default (vs_ID status) (shortID (vs_ID status))) status).

(** The permanent line that an event commits, if it commits one *)
Definition permanentLine (ev : event) : option string :=
  match ev with
  | EvLog when message => Some (logLine when (Trim message crlf))
  | EvStatus status =>
      if completes status then Some (statusLineOf status +:+ nl) else None
  end.

(** The status map after a status event, lines 125-130 *)
Definition nextStatuses (status : VertexStatus) (m : gmap string string)
  : gmap string string :=
  if completes status then delete (vs_ID status) m
  else <[vs_ID status := statusLineOf status]> m.

(** What a listener is told after a status event, lines 148-154: the last
    line of the block after its date, or the text of the event when the
    block is empty; then a line feed. *)
Definition toldAfter (status : VertexStatus) (m : gmap string string) : string :=
  fold_left (fun _ s => afterDate s) (renderStatuses (nextStatuses status m))
    (statusTextOf (default (vs_ID status) (shortID (vs_ID status))) status)
    +:+ nl.

Definition permanentLines (evs : list event) : list string :=
  omap permanentLine evs.

Definition isLog (ev : event) : bool :=
  match ev with EvLog _ _ => true | EvStatus _ => false end.

Definition isCompletion (ev : event) : bool :=
  match ev with EvLog _ _ => false | EvStatus status => completes status end.

(** The ids of the completion events *)
Definition completedIds (evs : list event) : list string :=
  omap (fun ev => match ev with
                  | EvStatus status =>
                      if completes status then Some (vs_ID status) else None
                  | EvLog _ _ => None
                  end) evs.

(** The logger with the file of a service replaced and with more calls
    heard; everything else as in [l]. *)
Definition withFile (service : string) (f : File)
           (calls : list (nat * string * string)) (l : flatfileLogger)
  : flatfileLogger :=
  mkLogger (currVertexStatuses l) (<[service := f]> (openFiles l))
           (logLineListeners l) (verbose l) (heard l ++ calls) (ticks l).

(** One call of every listener, in the order of their registration *)
Definition callAll (service line : string) (l : flatfileLogger)
  : list (nat * string * string) :=
  map (fun i => (i, service, line)) (logLineListeners l).

(** What a run of calls does to the file of a service: the file can still
    be written, [lines] were appended to its permanent region, and the
    clock was read [readings] times; the verbose flag and the listeners
    are as they were. *)
Definition extends (service lines : string) (readings : nat)
           (l l' : flatfileLogger) : Prop :=
  fileReady service l'
  /\ permanent (fileOf service l') = permanent (fileOf service l) +:+ lines
  /\ verbose l' = verbose l
  /\ logLineListeners l' = logLineListeners l
  /\ ticks l' = ticks l + readings.

(** Opening, writing and seeking call no listener, and leave the listeners
    and the status map as they are. *)
Definition sameEars (l l' : flatfileLogger) : Prop :=
  heard l' = heard l
  /\ logLineListeners l' = logLineListeners l
  /\ currVertexStatuses l' = currVertexStatuses l.

(** *** What a call of [ProcessStatus] writes

    The logger that an outcome leaves *)
Definition loggerOf (o : outcome) : flatfileLogger :=
  match o with
  | Returned l _ => l
  | Panicked l => l
  end.

(** The line of the verbose dump of a message at the reading [t] of the
    clock, and the number of readings it takes *)
Definition dumpText (vb : bool) (t : nat) (message : string) : string :=
  if vb then logLine (wallClock t) (Trim message crlf) else EmptyString.

Definition dumpTicks (vb : bool) : nat := if vb then 1 else 0.

(** A vertex whose name starts with ["[internal]"] *)
Definition internal (v : Vertex) : bool := HasPrefix (v_Name v) "[internal]".

Definition hasError (v : Vertex) : bool :=
  negb (String.eqb (v_Error v) EmptyString).

(** The lines of one vertex event, the clock having been read [t] times,
    and the number of readings they take *)
Definition vertexText (vb : bool) (t : nat) (v : Vertex) : string :=
  dumpText vb t (vertexDump v)
    +:+ (if internal v then EmptyString
         else
           (if hasError v
            then logLine (wallClock (t + dumpTicks vb))
                   (Trim (v_Error v +:+ ": LAYERID=" +:+ v_Digest v) crlf)
            else EmptyString)
             +:+ logLine
                   (wallClock (t + dumpTicks vb + (if hasError v then 1 else 0)))
                   (Trim ((if v_Cached v then "cached: " else EmptyString)
                            +:+ v_Name v) crlf)).

Definition vertexTicks (vb : bool) (v : Vertex) : nat :=
  dumpTicks vb
  + (if internal v then 0 else (if hasError v then 1 else 0) + 1).

Fixpoint vertexesText (vb : bool) (t : nat) (vs : list Vertex) : string :=
  match vs with
  | [] => EmptyString
  | v :: rest =>
      vertexText vb t v +:+ vertexesText vb (t + vertexTicks vb v) rest
  end.

Fixpoint vertexesTicks (vb : bool) (vs : list Vertex) : nat :=
  match vs with
  | [] => 0
  | v :: rest => vertexTicks vb v + vertexesTicks vb rest
  end.

(** The permanent lines of the status events: the dump, and the line of a
    completion *)
Fixpoint statusesText (vb : bool) (t : nat) (sts : list VertexStatus)
  : string :=
  match sts with
  | [] => EmptyString
  | st :: rest =>
      dumpText vb t (statusDump st)
        +:+ (if completes st then statusLineOf st +:+ nl else EmptyString)
        +:+ statusesText vb (t + dumpTicks vb) rest
  end.

(** The lines of the log events: the dump, and the line of the data at the
    time of the event *)
Fixpoint logsText (vb : bool) (t : nat) (lgs : list VertexLog) : string :=
  match lgs with
  | [] => EmptyString
  | lg :: rest =>
      dumpText vb t (logDump lg)
        +:+ logLine (l_Timestamp lg) (Trim (l_Data lg) crlf)
        +:+ logsText vb (t + dumpTicks vb) rest
  end.

(** The status event of an id that comes last in a run, if there is one *)
Fixpoint lastStatus (id : string) (evs : list event) : option VertexStatus :=
  match evs with
  | [] => None
  | ev :: rest =>
      match lastStatus id rest with
      | Some st => Some st
      | None =>
          match ev with
          | EvStatus st => if String.eqb (vs_ID st) id then Some st else None
          | EvLog _ _ => None
          end
      end
  end.

(** What [ProcessStatus] returns when the file of the service cannot be
    opened: the error of the first event that has to write. *)
Definition refusal (service : string) (status : SolveStatus)
  : option error :=
  let e := OsError "open" service in
  match List.find (fun v => negb (internal v)) (Vertexes status) with
  | Some v =>
      Some (Errorf (if hasError v
                    then "Could not log failure to %s's logs: %s"
                    else "Could not write to %s's logs: %s") service e)
  | None =>
      match Statuses status, Logs status with
      | _ :: _, _ => Some (Errorf "Could not status to %s's logs: %s" service e)
      | [], _ :: _ => Some (Errorf "Could not write to %s's logs: %s" service e)
      | [], [] => None
      end
  end.

(** The logger [l'] is [l] but for the number of readings of the clock. *)
Definition onlyClock (l l' : flatfileLogger) : Prop :=
  currVertexStatuses l' = currVertexStatuses l
  /\ openFiles l' = openFiles l
  /\ logLineListeners l' = logLineListeners l
  /\ verbose l' = verbose l
  /\ heard l' = heard l.

End Logger.
End Build.

(** ** The [localdev] provisioner: [checkCluster] and [checkClusterReady] *)

Module Localdev.
Import GoStrings.

Definition TAB : ascii := ascii_of_nat 9.
Definition SPACE : ascii := ascii_of_nat 32.
(** the one-byte string of a double quote *)
Definition dquote : string := String (ascii_of_nat 34) EmptyString.

(** [time.Minute], in nanoseconds *)
Definition Minute : Z := 60 * 1000000000.

(** What the check observes of the world. *)
Record World := mkWorld {
  (** [clusterNodes()]: the names of the node containers, or the text of
      its error *)
  listing : string + list string;
  (** [cmd.Run()] of [kubectl get nodes]: the text of the error and the
      standard error output, or the standard output *)
  kubectl : (string * string) + string;
  (** the successive readings of [time.Now()], in nanoseconds *)
  clock : nat -> Z;
  (** the operator's replies, as [fmt.Scanln(&resp)] reads them one after
      the other; at the end of the input [resp] stays empty *)
  replies : list string }.

(** What the check does: how many times it printed its question, and the
    [error] it returned ([None] is [nil]). *)
Record Result := mkResult { asked : nat; err : option string }.

Definition fail (msg : string) : Result := mkResult 0 (Some msg).
Definition healthy : Result := mkResult 0 None.

Section Check.
(** [time.Parse("2006-01-02T15:04:05Z", s)]: the instant in nanoseconds,
    [None] for its error *)
Variable parseTime : string -> option Z.

(** Lines 128-134 *)
Definition allNodesReady (nodesReady : list string) : bool :=
  forallb (fun nodeReady => String.eqb (TrimSpace nodeReady) "True") nodesReady.

(** Lines 139-153: the loop over [nodeTimes]; [i] counts the readings of
    the clock.  The result is the error, or [statusChangeRecent]. *)
Fixpoint recentLoop (clock : nat -> Z) (i : nat) (nodeTimes : list string)
         (statusChangeRecent : bool) : string + bool :=
  match nodeTimes with
  | [] => inr statusChangeRecent
  | timeString :: rest =>
      let timeString := TrimSpace timeString in
      match parseTime timeString with
      | None =>
          inl ("got invalid kubernetes output while checking how long cluster has been running: "
                 +:+ timeString)
      | Some statusTime =>
          recentLoop clock (S i) rest
            (if (clock i <? statusTime + Minute)%Z then true
             else statusChangeRecent)
      end
  end.

(** Lines 155-169: the question, asked until the reply is understood. *)
Fixpoint askRedeploy (replies : list string) (asked : nat) : Result :=
  match replies with
  | [] => mkResult (S asked) None
  | resp :: rest =>
      if String.eqb resp "y" || String.eqb resp "Y"
      then mkResult (S asked)
             (Some "some nodes weren't ready, and you chose to redeploy")
      else if String.eqb resp "n" || String.eqb resp "N" || String.eqb resp EmptyString
      then mkResult (S asked) None
      else askRedeploy rest (S asked)
  end.

(** [checkClusterReady] (lines 99-171) *)
Definition checkClusterReady (w : World) : Result :=
  match kubectl w with
  | inl (e, stderr) =>
      fail ("could not check if the cluster was running: " +:+ e +:+ " "
              +:+ stderr)
  | inr stdout =>
      match Split stdout TAB with
      | [split0; split1] =>
          let nodeTimes := Split split0 SPACE in
          let nodesReady := Split split1 SPACE in
          if negb (length nodeTimes =? 4)%nat then
            fail "some nodes were not running, we were expecting 4 (3 workers + one master node)"
          else if allNodesReady nodesReady then healthy
          else
            match recentLoop (clock w) 0 nodeTimes false with
            | inl e => fail e
            | inr true => askRedeploy (replies w) 0
            | inr false =>
                fail "cluster is not ready, and has not been for over a minute"
            end
      | _ =>
          fail ("got invalid kubernetes output while checking if cluster was running: "
                  +:+ dquote +:+ stdout +:+ dquote)
      end
  end.

(** Lines 179-184: the node of every required name is [nil] at first. *)
Definition requiredContainers : gmap string (option string) :=
  <["sanic-worker" := None]> (<["sanic-worker2" := None]>
 (<["sanic-worker3" := None]> (<["sanic-control-plane" := None]> ∅))).

(** Lines 186-190 *)
Definition markRunning (nodes : list string)
           (required : gmap string (option string))
  : gmap string (option string) :=
  fold_left
    (fun m name =>
       match m !! name with
       | Some _ => <[name := Some name]> m
       | None => m
       end)
    nodes required.

(** [checkCluster] (lines 173-207) *)
Definition checkCluster (w : World) : Result :=
  match listing w with
  | inl e => fail e
  | inr nodes =>
      let requiredContainersRunning := markRunning nodes requiredContainers in
      if (length nodes =? 0)%nat then
        fail "no nodes were running, cluster has to be provisioned once per docker engine restart"
      else if negb (length nodes =? size requiredContainersRunning)%nat then
        fail ("some nodes have been removed/crashed. only "
                +:+ fmt_d (Z.of_nat (length nodes)) +:+ "/"
                +:+ fmt_d (Z.of_nat (size requiredContainersRunning))
                +:+ " were running")
      else if existsb (fun node => match node.2 with None => true | Some _ => false end)
                (map_to_list requiredContainersRunning)
      then fail "some nodes were not running while others were, try deleting your cluster containers with docker rm"
      else checkClusterReady w
  end.
(** *** The ladder, as the code has it and as the specification words it *)

Definition requiredNames : list string :=
  ["sanic-worker"; "sanic-worker2"; "sanic-worker3"; "sanic-control-plane"].

(** Every required name is the name of a listed node. *)
Definition allRequiredPresent (nodes : list string) : bool :=
  forallb (fun name => bool_decide (name ∈ nodes)) requiredNames.

(** Some node changed its status less than a minute before the reading of
    the clock made for it; [i] counts the readings. *)
Fixpoint anyRecent (clock : nat -> Z) (i : nat) (times : list Z) : bool :=
  match times with
  | [] => false
  | statusTime :: rest =>
      (clock i <? statusTime + Minute)%Z || anyRecent clock (S i) rest
  end.

(** The five steps of the ladder *)
Inductive Verdict :=
| NotProvisioned
| PartiallyCrashed
| Healthy
| AskOperator
| NotHealthy.

(** A node as the specification has it: the time of its last transition
    and whether it is ready. *)
Record ClusterNode := mkNode { lastTransition : Z; ready : bool }.

(** The ladder in the words of the specification: no node; a node count
    other than four or a missing name; all ready; not all ready and every
    last transition within one minute of [now]; not all ready and
    transitions older than that. *)
Definition specLadder (names : list string) (nodes : list ClusterNode)
           (now : Z) : Verdict :=
  if (length names =? 0)%nat then NotProvisioned
  else if negb (length names =? 4)%nat || negb (allRequiredPresent names)
  then PartiallyCrashed
  else if forallb ready nodes then Healthy
  else if forallb (fun n => (now - lastTransition n <=? Minute)%Z) nodes
  then AskOperator
  else NotHealthy.

(** The replies of the [switch] of lines 160-167: the two that choose to
    redeploy, the three that decline, and the ones that are understood. *)
Definition agrees (resp : string) : bool :=
  String.eqb resp "y" || String.eqb resp "Y".

Definition declines (resp : string) : bool :=
  String.eqb resp "n" || String.eqb resp "N" || String.eqb resp EmptyString.

Definition understood (resp : string) : bool := agrees resp || declines resp.

End Check.
End Localdev.

(** ** The [env] command: [environmentCommandAutocomplete] *)

Module Commands.
Import GoStrings.

(** What the completion reads: the arguments of the command line
    ([c.Args()]); the result of [findSanicConfig()], [None] for its error;
    and, for a path, the result of [config.ReadFromPath]: the keys of
    [configData.Environments] in the order in which the [range] visits them,
    [None] for an error or a [nil] configuration. *)
Record Invocation := mkInvocation {
  args : list string;
  sanicConfig : option string;
  environments : string -> option (list string) }.

(** [c.Args().First()] *)
Definition First (args : list string) : string :=
  match args with
  | [] => EmptyString
  | a :: _ => a
  end.

(** Lines 47-53: the keys that start with the requested name *)
Definition possibleEnvs (requestedEnv : string) (keys : list string)
  : list string :=
  List.filter (fun key => HasPrefix key requestedEnv) keys.

(** [println(env)] for an index: its decimal digits and a line feed *)
Definition println_int (env : nat) : string := fmt_d (Z.of_nat env) +:+ nl.

(** [environmentCommandAutocomplete] (lines 30-60): the texts that [print]
    and [println] write, in their order.  The last loop is
    [for env := range possibleEnvs]: with one variable, the [range] over a
    slice yields its indices. *)
Definition environmentCommandAutocomplete (c : Invocation) : list string :=
  if (1 <? length (args c))%nat then []
  else
    let requestedEnv :=
      if (length (args c) =? 1)%nat then First (args c) else EmptyString in
    match sanicConfig c with
    | None => []
    | Some configPath =>
        match environments c configPath with
        | None => []
        | Some keys =>
            let possible := possibleEnvs requestedEnv keys in
            ((if (length possible =? 1)%nat
              then [nth 0 possible EmptyString] else [])
               ++ map println_int (seq 0 (length possible)))%list
        end
    end.

End Commands.

(** ** Sample runs

    Concrete loggers and events, on which the properties below are
    evaluated.  A time is named by its rendering. *)

Module Sample.
Import Build.

Definition timeString (t : string) : string := t.
Definition wallClock (n : nat) : string := "now" +:+ fmt_d (Z.of_nat n).
Definition canOpen (service : string) : bool := true.

(** A new logger, and one with a listener, number 7. *)
Definition quiet : flatfileLogger := NewFlatfileLogger false.
Definition listened : flatfileLogger := AddLogLineListener 7 quiet.

(** A status event at time ["T"] *)
Definition status (id : string) (current total : Z) (completed : bool)
  : @VertexStatus string :=
  mkVertexStatus id EmptyString EmptyString current total "T"
                 (if completed then Some "T" else None).

(** The progress of layer ["abc"], a line of the build, its completion. *)
Definition churn : list (@event string) :=
  [EvStatus (status "abc" 50 100 false);
   EvLog "T" "RUN make";
   EvStatus (status "abc" 100 100 true)].

(** A status whose line gets shorter: the total becomes unknown. *)
Definition shrinking : list (@event string) :=
  [EvStatus (status "x" 1024 2048 false);
   EvStatus (status "x" 1024 0 false)].

(** The completion of one id, reported twice. *)
Definition completedTwice : list (@event string) :=
  [EvStatus (status "x" 2048 2048 true);
   EvStatus (status "x" 2048 2048 true)].

(** Two layers in progress, then the completion of the second. *)
Definition twoLayers : list (@event string) :=
  [EvStatus (status "a" 100 100 false);
   EvStatus (status "b" 50 100 false)].

(** The logger after a run; the logger itself if the run panics. *)
Definition after (evs : list (@event string)) (l : flatfileLogger)
  : flatfileLogger :=
  match runEvents timeString canOpen "svc" evs l with
  | Returned l' _ => l'
  | Panicked l' => l'
  end.

(** A logger whose file was written and then closed. *)
Definition closedLogger : flatfileLogger :=
  Close (Log timeString canOpen "svc" "T" "first" listened).1.

Definition failingVertex : Vertex :=
  mkVertex "[2/3] RUN make" "sha256:0123" true "exit code 2".

(** A log line that starts and ends with a line feed *)
Definition framedLog : @VertexLog string :=
  mkVertexLog "sha256:0123" (String LF "hello" +:+ nl) "T".

(** The times of the sample cluster: ["fresh"] is ten seconds before the
    clock, ["stale"] five minutes. *)
Definition parseTime (s : string) : option Z :=
  if String.eqb s "fresh" then Some 990000000000%Z
  else if String.eqb s "stale" then Some 700000000000%Z
  else None.

Definition clock (i : nat) : Z := 1000000000000%Z.

(** Four nodes of the expected names; the second is not ready; the first
    changed ten seconds ago, the others five minutes ago; no reply of the
    operator. *)
Definition mixedTimes : string := "fresh stale stale stale".
Definition mixedStatuses : string := "True False True True".

Definition mixedCluster : Localdev.World :=
  Localdev.mkWorld
    (inr Localdev.requiredNames)
    (inr (mixedTimes +:+ String Localdev.TAB mixedStatuses))
    clock [].

Definition mixedNodes : list Localdev.ClusterNode :=
  [Localdev.mkNode 990000000000 true; Localdev.mkNode 700000000000 false;
   Localdev.mkNode 700000000000 true; Localdev.mkNode 700000000000 true].

(** The answer of a build: a vertex that failed, the completion of a
    layer, a raw log line. *)
Definition solve : @SolveStatus string :=
  mkSolveStatus [failingVertex] [status "abc" 100 100 true] [framedLog].

(** An answer whose only status has an id too short for its short id. *)
Definition brokenSolve : @SolveStatus string :=
  mkSolveStatus [] [status "sha256:abc" 50 100 false] [].

(** The answer [solve] with a second status, whose id is too short. *)
Definition panickingSolve : @SolveStatus string :=
  mkSolveStatus [failingVertex]
    [status "abc" 100 100 true; status "sha256:abc" 50 100 false]
    [framedLog].

(** A log directory in which no file can be made. *)
Definition readOnly (service : string) : bool := false.

(** The times of a cluster whose second time is not a time. *)
Definition bogusTimes : string := "fresh bogus stale stale".

Definition bogusCluster : Localdev.World :=
  Localdev.mkWorld
    (inr Localdev.requiredNames)
    (inr (bogusTimes +:+ String Localdev.TAB mixedStatuses))
    clock [].

(** The completion of the [env] command with a configuration at
    ["sanic.yaml"] that names the environments [keys]. *)
Definition complete (arguments keys : list string) : Commands.Invocation :=
  Commands.mkInvocation arguments (Some "sanic.yaml")
    (fun path => if String.eqb path "sanic.yaml" then Some keys else None).

End Sample.

(** * Properties *)

Import GoStrings Float64 Build.

(** ** Byte strings *)

(** stdpp keeps [simpl] from unfolding [+:+]; its two equations are
    rewritten instead. *)
Lemma app_cons (a : ascii) (s t : string) :
  String a s +:+ t = String a (s +:+ t).
Proof. reflexivity. Qed.

Lemma app_nil_l (t : string) : EmptyString +:+ t = t.
Proof. reflexivity. Qed.

Ltac str_simpl := simpl; rewrite ?app_cons, ?app_nil_l; simpl.

Lemma length_skip (n : nat) (s : string) :
  String.length (skip n s) = String.length s - n.
Proof.
  revert s; induction n as [|n IH]; intros [|a s]; simpl; auto with arith.
Qed.

Lemma length_keep (n : nat) (s : string) :
  String.length (keep n s) = Nat.min n (String.length s).
Proof.
  revert s; induction n as [|n IH]; intros [|a s]; simpl; auto.
Qed.

Lemma keep_skip (n : nat) (s : string) : keep n s +:+ skip n s = s.
Proof.
  revert s; induction n as [|n IH]; intros [|a s]; str_simpl; auto.
  now rewrite IH.
Qed.

Lemma length_app (s t : string) :
  String.length (s +:+ t) = String.length s + String.length t.
Proof. induction s as [|a s IH]; str_simpl; auto. Qed.

Lemma app_assoc_s (s t u : string) : (s +:+ t) +:+ u = s +:+ (t +:+ u).
Proof. induction s as [|a s IH]; str_simpl; auto. now rewrite IH. Qed.

Lemma app_empty_r (s : string) : s +:+ EmptyString = s.
Proof. induction s as [|a s IH]; str_simpl; auto. now rewrite IH. Qed.

Lemma keep_app (s t : string) : keep (String.length s) (s +:+ t) = s.
Proof. induction s as [|a s IH]; str_simpl; auto. now rewrite IH. Qed.

Lemma skip_app (s t : string) : skip (String.length s) (s +:+ t) = t.
Proof. induction s as [|a s IH]; str_simpl; auto. Qed.

Lemma keep_all (n : nat) (s : string) : String.length s <= n -> keep n s = s.
Proof.
  revert s; induction n as [|n IH]; intros [|a s]; simpl; intros H; auto.
  - lia.
  - rewrite IH; auto with arith.
Qed.

Lemma skip_all (n : nat) (s : string) :
  String.length s <= n -> skip n s = EmptyString.
Proof.
  revert s; induction n as [|n IH]; intros [|a s]; simpl; intros H; auto.
  - lia.
  - apply IH; lia.
Qed.

Lemma skip_skip (n m : nat) (s : string) : skip n (skip m s) = skip (m + n) s.
Proof.
  revert s; induction m as [|m IH]; intros s; simpl; auto.
  destruct s as [|a s]; auto. now destruct n.
Qed.

Lemma HasPrefix_app (p s : string) : HasPrefix (p +:+ s) p = true.
Proof.
  induction p as [|a p IH]; [reflexivity|].
  rewrite app_cons. cbn [HasPrefix]. now rewrite Ascii.eqb_refl.
Qed.

Lemma HasPrefix_spec (s p : string) :
  HasPrefix s p = true <-> exists t, s = p +:+ t.
Proof.
  split.
  - revert s; induction p as [|b p IH]; intros s H.
    + now exists s.
    + destruct s as [|a s]; [discriminate|]. cbn [HasPrefix] in H.
      destruct (Ascii.eqb_spec a b) as [->|]; [|discriminate].
      destruct (IH _ H) as [t ->]. now exists t.
  - intros [t ->]. apply HasPrefix_app.
Qed.

Lemma Index_nonneg_or (s sep : string) : (Index s sep = -1 \/ 0 <= Index s sep)%Z.
Proof.
  induction s as [|a s IH]; simpl.
  - destruct (HasPrefix _ _); auto with zarith.
  - destruct (HasPrefix _ _); [auto with zarith|].
    destruct (Z.ltb_spec (Index s sep) 0); [auto|right; lia].
Qed.

(** [strings.Index(s, p) == 0] says that [s] starts with [p]. *)
Lemma Index_zero (s p : string) :
  (Index s p =? 0)%Z = HasPrefix s p.
Proof.
  destruct s as [|a s]; simpl.
  - now destruct (HasPrefix _ _).
  - destruct (HasPrefix _ _); auto.
    destruct (Index_nonneg_or s p) as [->|H]; simpl; auto.
    destruct (Z.ltb_spec (Index s p) 0); [lia|].
    apply Z.eqb_neq. lia.
Qed.

(** ** Trimming *)

Lemma TrimLeft_split (s c : string) :
  exists pre : string, s = pre +:+ TrimLeft s c /\ allIn c pre = true.
Proof.
  induction s as [|a s (pre & IH & Hpre)]; simpl.
  - now exists EmptyString.
  - destruct (inCutset a c) eqn:E.
    + exists (String a pre). rewrite app_cons, <- IH. simpl. now rewrite E.
    + now exists EmptyString.
Qed.

Lemma startsIn_TrimLeft (s c : string) : startsIn c (TrimLeft s c) = false.
Proof.
  induction s as [|a s IH]; simpl; auto.
  destruct (inCutset a c) eqn:E; auto.
Qed.

Lemma TrimRight_split (s c : string) :
  exists post : string, s = TrimRight s c +:+ post /\ allIn c post = true.
Proof.
  induction s as [|a s (post & IH & Hpost)]; simpl.
  - now exists EmptyString.
  - destruct (TrimRight s c) as [|b t] eqn:Et.
    + destruct (inCutset a c) eqn:E.
      * exists (String a post). rewrite app_nil_l in *. subst s.
        simpl. now rewrite E.
      * exists post. rewrite app_cons, app_nil_l. rewrite app_nil_l in IH.
        subst s. auto.
    + exists post. rewrite app_cons. split; [now f_equal|assumption].
Qed.

Lemma endsIn_TrimRight (s c : string) : endsIn c (TrimRight s c) = false.
Proof.
  induction s as [|a s IH]; simpl; auto.
  destruct (TrimRight s c) as [|b t] eqn:Et.
  - destruct (inCutset a c) eqn:E; simpl; auto.
  - exact IH.
Qed.

Lemma startsIn_TrimRight (s c : string) :
  startsIn c s = false -> startsIn c (TrimRight s c) = false.
Proof.
  destruct s as [|a s]; simpl; auto.
  intros H. destruct (TrimRight s c); [rewrite H|]; simpl; auto.
Qed.

Lemma TrimLeft_id (s c : string) : startsIn c s = false -> TrimLeft s c = s.
Proof. destruct s as [|a s]; simpl; auto. now intros ->. Qed.

Lemma TrimRight_id (s c : string) : endsIn c s = false -> TrimRight s c = s.
Proof.
  induction s as [|a s IH]; simpl; auto.
  destruct s as [|b s].
  - simpl. now intros ->.
  - intros H. rewrite (IH H). reflexivity.
Qed.

(** Trimming twice is trimming once: [ProcessStatus] trims the data of a
    log line, and [Log] trims it again. *)
Lemma Trim_idempotent (s c : string) : Trim (Trim s c) c = Trim s c.
Proof.
  unfold Trim.
  rewrite (TrimLeft_id (TrimRight (TrimLeft s c) c)).
  - apply TrimRight_id, endsIn_TrimRight.
  - apply startsIn_TrimRight, startsIn_TrimLeft.
Qed.

(** What [strings.Trim] removes: a run of cutset bytes at the head and one
    at the end, and nothing else; what is left neither starts nor ends
    with a byte of the cutset. *)
Lemma Trim_split (s c : string) :
  exists pre post : string,
    s = pre +:+ Trim s c +:+ post
    /\ allIn c pre = true /\ allIn c post = true
    /\ startsIn c (Trim s c) = false /\ endsIn c (Trim s c) = false.
Proof.
  destruct (TrimLeft_split s c) as (pre & H1 & Hpre).
  destruct (TrimRight_split (TrimLeft s c) c) as (post & H2 & Hpost).
  exists pre, post. unfold Trim. rewrite <- H2, <- H1.
  repeat split; auto.
  - apply startsIn_TrimRight, startsIn_TrimLeft.
  - apply endsIn_TrimRight.
Qed.

(** ** The short id *)

Lemma slice_Some (s : string) (lo hi : nat) :
  lo <= hi -> hi <= String.length s ->
  slice s lo hi = Some (keep (hi - lo) (skip lo s)).
Proof.
  intros H1 H2. unfold slice.
  destruct (Nat.leb_spec lo hi); [|lia].
  destruct (Nat.leb_spec hi (String.length s)); [reflexivity|lia].
Qed.

Lemma slice_None (s : string) (lo hi : nat) :
  String.length s < hi -> slice s lo hi = None.
Proof.
  intros H. unfold slice.
  destruct (Nat.leb_spec hi (String.length s)); [lia|].
  now rewrite andb_false_r.
Qed.

(** The slice panics exactly for a prefixed id of fewer than 19 bytes. *)
Lemma shortID_None (id : string) :
  shortID id = None <->
  HasPrefix id "sha256:" = true /\ String.length id < 19.
Proof.
  unfold shortID. destruct (HasPrefix id "sha256:"); split.
  - intros H. split; [reflexivity|].
    destruct (Nat.le_gt_cases 19 (String.length id)) as [Hl|Hl]; [|lia].
    rewrite slice_Some in H by lia. discriminate.
  - intros [_ H]. now apply slice_None.
  - discriminate.
  - intros [H _]. discriminate.
Qed.

(** C7.  Short-id derivation.  An id that starts with ["sha256:"] and is
    long enough for the slice (a content hash is: the prefix and 64
    hexadecimal digits) is shortened to the 12 bytes that start at offset 7,
    that is, to the first 12 bytes of what follows the prefix; every other
    id is used unchanged. *)
Theorem shortID_derivation (id : string) :
  (HasPrefix id "sha256:" = true -> 19 <= String.length id) ->
  shortID id =
    Some (if HasPrefix id "sha256:" then keep 12 (skip 7 id) else id)
  /\ (forall payload : string,
        id = "sha256:" +:+ payload ->
        shortID id = Some (keep 12 payload)
        /\ String.length (keep 12 payload) = 12).
Proof.
  intros Hlen.
  assert (Hs : shortID id =
               Some (if HasPrefix id "sha256:" then keep 12 (skip 7 id) else id)).
  { unfold shortID. destruct (HasPrefix id "sha256:"); [|reflexivity].
    rewrite slice_Some; [reflexivity| lia | auto]. }
  split; [exact Hs|].
  intros payload ->. rewrite Hs.
  specialize (Hlen (HasPrefix_app "sha256:" payload)).
  rewrite HasPrefix_app.
  change (skip 7 ("sha256:" +:+ payload)) with payload.
  split; [reflexivity|].
  rewrite length_keep. rewrite length_app in Hlen. simpl in Hlen. lia.
Qed.

(** The short id of a digest, and of a plain name. *)
Lemma shortID_derivation_witness :
  shortID "sha256:9f86d081884c7d659a2feaa0c55ad015a3bf4f1b2b0b822cd15d6c15b0f00a08"
  = Some "9f86d081884c"
  /\ shortID "plain-name" = Some "plain-name".
Proof.
  split.
  - exact (proj1 (shortID_derivation
      "sha256:9f86d081884c7d659a2feaa0c55ad015a3bf4f1b2b0b822cd15d6c15b0f00a08"
      ltac:(intros _; vm_compute; lia))).
  - exact (proj1 (shortID_derivation "plain-name" ltac:(discriminate))).
Defined.

(** ** Byte humanization *)

Section Humanize.
Local Open Scope Z_scope.

(** The conversion to [float64] keeps the binary exponent, or rounds up to
    the next power of two. *)
Lemma float64_bracket (z : Z) :
  z <> 0 ->
  2 ^ Z.log2 (Z.abs z) <= Z.abs (float64_of_int64 z)
  <= 2 ^ (Z.log2 (Z.abs z) + 1).
Proof.
  intros Hz. unfold float64_of_int64.
  set (a := Z.abs z). set (e := Z.log2 a).
  assert (Ha : 0 < a) by (unfold a; lia).
  destruct (Z.log2_spec a Ha) as [Hlo Hhi]. fold e in Hlo, Hhi.
  rewrite <- Z.add_1_r in Hhi.
  destruct (Z.ltb_spec e 53) as [He|He].
  - fold a. lia.
  - set (sh := e - 52).
    assert (Hsh : 0 < sh) by (unfold sh; lia).
    set (q := Z.shiftr a sh).
    assert (Hq : 2 ^ 52 <= q < 2 ^ 53).
    { unfold q. rewrite Z.shiftr_div_pow2 by lia.
      assert (Hp : 0 < 2 ^ sh) by (apply Z.pow_pos_nonneg; lia).
      assert (E1 : 2 ^ e = 2 ^ 52 * 2 ^ sh).
      { rewrite <- Z.pow_add_r by lia. f_equal. unfold sh. lia. }
      assert (E2 : 2 ^ (e + 1) = 2 ^ 53 * 2 ^ sh).
      { rewrite <- Z.pow_add_r by lia. f_equal. unfold sh. lia. }
      split.
      - apply Z.div_le_lower_bound; lia.
      - apply Z.div_lt_upper_bound; lia. }
    match goal with
    | |- context [Z.shiftl ?x sh] => set (q' := x)
    end.
    assert (Hq' : q <= q' <= q + 1).
    { unfold q'. repeat match goal with
                        | |- context [if ?c then _ else _] => destruct c
                        end; lia. }
    rewrite Z.shiftl_mul_pow2 by lia.
    assert (Hp : 0 < 2 ^ sh) by (apply Z.pow_pos_nonneg; lia).
    assert (Habs : Z.abs (Z.sgn z * (q' * 2 ^ sh)) = q' * 2 ^ sh).
    { assert (0 <= q' * 2 ^ sh) by nia.
      assert (Hs : Z.sgn z = 1 \/ Z.sgn z = -1)
        by (destruct z; [contradiction|left|right]; reflexivity).
      destruct Hs as [-> | ->]; lia. }
    rewrite Habs.
    assert (E1 : 2 ^ e = 2 ^ 52 * 2 ^ sh).
    { rewrite <- Z.pow_add_r by lia. f_equal. unfold sh. lia. }
    assert (E2 : 2 ^ (e + 1) = 2 ^ 53 * 2 ^ sh).
    { rewrite <- Z.pow_add_r by lia. f_equal. unfold sh. lia. }
    rewrite E1, E2. nia.
Qed.

(** An integer of at most 53 bits is a [float64]. *)
Lemma float64_exact (z : Z) :
  Z.abs z <= 2 ^ 53 -> float64_of_int64 z = z.
Proof.
  intros Hz. unfold float64_of_int64.
  destruct (Z.ltb_spec (Z.log2 (Z.abs z)) 53) as [He|He]; [reflexivity|].
  assert (Ha : 0 < Z.abs z).
  { destruct (Z.eq_dec z 0) as [->|]; [simpl in He; lia|lia]. }
  destruct (Z.log2_spec _ Ha) as [Hlo _].
  assert (2 ^ 53 <= 2 ^ Z.log2 (Z.abs z)) by (apply Z.pow_le_mono_r; lia).
  assert (Hz' : z = 2 ^ 53 \/ z = - 2 ^ 53) by lia.
  destruct Hz' as [-> | ->]; vm_compute; reflexivity.
Qed.

(** The unit is one of the seven, and it is the largest whose size is at
    most the converted count. *)
Lemma unitIndex_range (bytes : Z) :
  - 2 ^ 63 <= bytes < 2 ^ 63 -> bytes <> 0 ->
  0 <= unitIndex bytes <= 6
  /\ 1024 ^ unitIndex bytes <= Z.abs (float64_of_int64 bytes)
     < 1024 ^ (unitIndex bytes + 1).
Proof.
  intros Hr Hz. unfold unitIndex, Logb.
  destruct (float64_bracket bytes Hz) as [Hlo Hhi].
  set (f := Z.abs (float64_of_int64 bytes)) in *.
  assert (He0 : 0 <= Z.log2 (Z.abs bytes)) by apply Z.log2_nonneg.
  assert (He : Z.log2 (Z.abs bytes) <= 63).
  { destruct (Z.le_gt_cases (Z.log2 (Z.abs bytes)) 63) as [|Hgt]; [assumption|].
    assert (Ha : 0 < Z.abs bytes) by lia.
    destruct (Z.log2_spec _ Ha) as [H1 _].
    assert (2 ^ 64 <= 2 ^ Z.log2 (Z.abs bytes)) by (apply Z.pow_le_mono_r; lia).
    lia. }
  assert (Hf : 0 < f).
  { assert (0 < 2 ^ Z.log2 (Z.abs bytes)) by (apply Z.pow_pos_nonneg; lia). lia. }
  destruct (Z.log2_spec f Hf) as [Hl1 Hl2].
  set (L := Z.log2 f) in *.
  assert (HL0 : 0 <= L) by apply Z.log2_nonneg.
  assert (HL : L <= 64).
  { destruct (Z.le_gt_cases L 64) as [|Hgt]; [assumption|].
    assert (2 ^ 65 <= 2 ^ L) by (apply Z.pow_le_mono_r; lia).
    assert (2 ^ (Z.log2 (Z.abs bytes) + 1) <= 2 ^ 64)
      by (apply Z.pow_le_mono_r; lia).
    lia. }
  assert (Hk : 10 * (L / 10) <= L < 10 * (L / 10) + 10).
  { pose proof (Z.div_mod L 10 ltac:(lia)).
    pose proof (Z.mod_pos_bound L 10 ltac:(lia)). lia. }
  assert (Hk0 : 0 <= L / 10) by (apply Z.div_pos; lia).
  split; [split; [assumption|]|].
  - assert (L / 10 < 7) by (apply Z.div_lt_upper_bound; lia). lia.
  - change 1024 with (2 ^ 10). rewrite <- !Z.pow_mul_r by lia.
    split.
    + transitivity (2 ^ L); [apply Z.pow_le_mono_r; lia|assumption].
    + apply Z.lt_le_trans with (2 ^ Z.succ L); [assumption|].
      apply Z.pow_le_mono_r; lia.
Qed.

(** What [%.2f] shows is within half a hundredth of the quotient. *)
Lemma hundredths_nearest (n d : Z) :
  0 < d ->
  0 <= hundredths n d
  /\ Z.abs (2 * (100 * Z.abs n - hundredths n d * d)) <= d.
Proof.
  intros Hd. unfold hundredths.
  set (a := 100 * Z.abs n).
  assert (Ha : 0 <= a) by (unfold a; lia).
  pose proof (Z.div_mod a d ltac:(lia)) as Hdm.
  pose proof (Z.mod_pos_bound a d Hd) as Hm.
  assert (Hq : 0 <= a / d) by (apply Z.div_pos; lia).
  repeat match goal with
         | |- context [if ?c then _ else _] =>
             let E := fresh "E" in destruct c eqn:E
         end;
    rewrite ?Z.ltb_lt, ?Z.ltb_ge in *; split; nia.
Qed.

Lemma two_digits (h : Z) :
  0 <= h ->
  0 <= h mod 100 / 10 <= 9 /\ 0 <= h mod 10 <= 9
  /\ h = 100 * (h / 100) + 10 * (h mod 100 / 10) + h mod 10.
Proof.
  intros Hh.
  pose proof (Z.mod_pos_bound h 100 ltac:(lia)).
  pose proof (Z.mod_pos_bound h 10 ltac:(lia)).
  pose proof (Z.div_mod h 100 ltac:(lia)).
  pose proof (Z.div_mod (h mod 100) 10 ltac:(lia)).
  assert (E : (h mod 100) mod 10 = h mod 10).
  { apply Z.mod_mod_divide. exists 10. reflexivity. }
  rewrite E in *.
  assert (0 <= h mod 100 / 10) by (apply Z.div_pos; lia).
  assert (h mod 100 / 10 < 10) by (apply Z.div_lt_upper_bound; lia).
  lia.
Qed.

(** C8.  Byte humanization.  Zero is ["0B"].  For any other [int64] the
    count is converted to [float64] (exactly, up to [2^53] in absolute
    value); the unit is the largest of B, KB, MB, GB, TB, PB, EB whose size
    [1024^k] is at most the converted count; and the text is the sign, the
    count divided by [1024^k] rounded to the nearest hundredth and shown
    with exactly two digits after the point, then the unit.  In particular
    1024 is ["1.00KB"], 1536 is ["1.50KB"] and 1073741824 is ["1.00GB"]. *)
Theorem humanReadableBytes_spec :
  humanReadableBytes 0 = "0B"
  /\ humanReadableBytes 1024 = "1.00KB"
  /\ humanReadableBytes 1536 = "1.50KB"
  /\ humanReadableBytes 1073741824 = "1.00GB"
  /\ forall bytes : Z,
      - 2 ^ 63 <= bytes < 2 ^ 63 -> bytes <> 0 ->
      let f := float64_of_int64 bytes in
      let k := unitIndex bytes in
      let h := hundredths f (1024 ^ k) in
      (Z.abs bytes <= 2 ^ 53 -> f = bytes)
      /\ 0 <= k <= 6
      /\ 1024 ^ k <= Z.abs f < 1024 ^ (k + 1)
      /\ Z.abs (2 * (100 * Z.abs f - h * 1024 ^ k)) <= 1024 ^ k
      /\ exists (unit : string) (d1 d2 : Z),
          suf !! Z.to_nat k = Some unit
          /\ 0 <= d1 <= 9 /\ 0 <= d2 <= 9
          /\ h = 100 * (h / 100) + 10 * d1 + d2
          /\ humanReadableBytes bytes =
               ((if f <? 0 then "-" else EmptyString)
                  +:+ fmt_d (h / 100) +:+ "."
                  +:+ String (digit d1) (String (digit d2) EmptyString))
                 +:+ unit.
Proof.
  do 4 (split; [vm_compute; reflexivity|]).
  intros bytes Hr Hz f k h.
  destruct (unitIndex_range bytes Hr Hz) as [Hk Hf]. fold k f in Hk, Hf.
  assert (Hd : 0 < 1024 ^ k) by (apply Z.pow_pos_nonneg; lia).
  destruct (hundredths_nearest f (1024 ^ k) Hd) as [Hh0 Hh]. fold h in Hh0, Hh.
  destruct (two_digits h Hh0) as (Hd1 & Hd2 & Hsum).
  split; [apply float64_exact|].
  split; [exact Hk|]. split; [exact Hf|]. split; [exact Hh|].
  assert (Hu : exists unit, suf !! Z.to_nat k = Some unit).
  { apply lookup_lt_is_Some. simpl. lia. }
  destruct Hu as [unit Hu].
  exists unit, (h mod 100 / 10), (h mod 10).
  repeat (split; [assumption || lia|]).
  unfold humanReadableBytes.
  destruct (Z.eqb_spec bytes 0) as [|_]; [contradiction|].
  fold k f. unfold fmt_2f. fold h.
  f_equal. rewrite nth_lookup, Hu. reflexivity.
Qed.

(** The unit of 1536 bytes is KB: 1536 is between 1024 and 1024 * 1024. *)
Lemma humanReadableBytes_spec_witness :
  1024 ^ 1 <= Z.abs (float64_of_int64 1536) < 1024 ^ (1 + 1).
Proof.
  pose proof (proj2 (proj2 (proj2 (proj2 humanReadableBytes_spec))) 1536
                ltac:(lia) ltac:(lia)) as H.
  exact (proj1 (proj2 (proj2 H))).
Defined.

(** X5.  [suf[int64(place)]] is in range for every [int64] other than
    zero: [humanReadableBytes] does not panic. *)
Theorem unit_in_range (bytes : Z) :
  - 2 ^ 63 <= bytes < 2 ^ 63 -> bytes <> 0 ->
  0 <= unitIndex bytes /\ is_Some (suf !! Z.to_nat (unitIndex bytes)).
Proof.
  intros Hr Hz. destruct (unitIndex_range bytes Hr Hz) as [Hk _].
  split; [lia|]. apply lookup_lt_is_Some. simpl. lia.
Qed.

(** The largest [int64] has a unit. *)
Lemma unit_in_range_witness :
  0 <= unitIndex (2 ^ 63 - 1)
  /\ is_Some (suf !! Z.to_nat (unitIndex (2 ^ 63 - 1))).
Proof. apply unit_in_range; lia. Defined.

(** X6.  The number that [humanReadableBytes] shows for a count other than
    zero is at least 1.00 and at most 1024.00: the rounding to hundredths
    can reach 1024.00, and the unit is not changed for it. *)
Theorem shown_between_1_and_1024 (bytes : Z) :
  - 2 ^ 63 <= bytes < 2 ^ 63 -> bytes <> 0 ->
  100 <= hundredths (float64_of_int64 bytes) (1024 ^ unitIndex bytes)
      <= 102400.
Proof.
  intros Hr Hz. destruct (unitIndex_range bytes Hr Hz) as [Hk [Hlo Hhi]].
  set (k := unitIndex bytes) in *. set (f := float64_of_int64 bytes) in *.
  assert (Hd : 0 < 1024 ^ k) by (apply Z.pow_pos_nonneg; lia).
  rewrite Z.pow_add_r, Z.pow_1_r in Hhi by lia.
  destruct (hundredths_nearest f (1024 ^ k) Hd) as [Hh0 Hh].
  set (h := hundredths f (1024 ^ k)) in *. set (d := 1024 ^ k) in *.
  split.
  - assert (99 * d < h * d) by lia. nia.
  - assert (h * d < 102401 * d) by lia. nia.
Qed.

(** One byte is shown as 1.00, and one byte less than a megabyte as
    1024.00, in KB. *)
Lemma shown_between_1_and_1024_witness :
  (100 <= hundredths (float64_of_int64 1048575) (1024 ^ unitIndex 1048575)
       <= 102400)
  /\ humanReadableBytes 1048575 = "1024.00KB"
  /\ humanReadableBytes 1 = "1.00B".
Proof.
  split; [apply shown_between_1_and_1024; lia|].
  split; vm_compute; reflexivity.
Defined.

Lemma float64_of_int64_opp (z : Z) :
  float64_of_int64 (- z) = - float64_of_int64 z.
Proof.
  unfold float64_of_int64. rewrite Z.abs_opp, Z.sgn_opp.
  destruct (Z.log2 (Z.abs z) <? 53); [reflexivity|lia].
Qed.

Lemma float64_of_int64_pos (z : Z) : 0 < z -> 0 < float64_of_int64 z.
Proof.
  intros Hz.
  destruct (float64_bracket z ltac:(lia)) as [Hlo _].
  assert (0 < 2 ^ Z.log2 (Z.abs z))
    by (apply Z.pow_pos_nonneg; [lia|apply Z.log2_nonneg]).
  assert (Hs : 0 <= float64_of_int64 z); [|lia].
  unfold float64_of_int64.
  destruct (Z.log2 (Z.abs z) <? 53); [lia|].
  assert (Z.sgn z = 1) as -> by (destruct z; [lia|reflexivity|lia]).
  rewrite Z.mul_1_l. apply Z.shiftl_nonneg.
  assert (0 <= Z.shiftr (Z.abs z) (Z.log2 (Z.abs z) - 52))
    by (apply Z.shiftr_nonneg; lia).
  repeat match goal with
         | |- context [if ?c then _ else _] => destruct c
         end; lia.
Qed.

(** X7.  A negative count is humanized as its opposite, after a minus
    sign: the unit is taken from the absolute value, and the value that is
    shown keeps its sign. *)
Theorem humanReadableBytes_opp (bytes : Z) :
  0 < bytes ->
  humanReadableBytes (- bytes) = "-" +:+ humanReadableBytes bytes.
Proof.
  intros Hz. pose proof (float64_of_int64_pos bytes Hz) as Hf.
  unfold humanReadableBytes, unitIndex, Logb.
  rewrite float64_of_int64_opp, Z.abs_opp.
  destruct (Z.eqb_spec (- bytes) 0) as [|_]; [lia|].
  destruct (Z.eqb_spec bytes 0) as [|_]; [lia|].
  unfold fmt_2f, hundredths. rewrite Z.abs_opp.
  destruct (Z.ltb_spec (- float64_of_int64 bytes) 0) as [_|]; [|lia].
  destruct (Z.ltb_spec (float64_of_int64 bytes) 0) as [|_]; [lia|].
  reflexivity.
Qed.

(** Minus one and a half kilobytes *)
Lemma humanReadableBytes_opp_witness :
  humanReadableBytes (- 1536) = "-" +:+ humanReadableBytes 1536
  /\ humanReadableBytes (- 1536) = "-1.50KB".
Proof.
  split; [exact (humanReadableBytes_opp 1536 ltac:(lia))|].
  vm_compute. reflexivity.
Defined.

End Humanize.

(** ** Files: writing at the offset, and seeking back *)

Lemma length_permanent (f : File) :
  writable f -> String.length (permanent f) = offset f.
Proof. intros [_ H]. unfold permanent. rewrite length_keep. lia. Qed.

Lemma permanent_tail (f : File) : permanent f +:+ tail f = data f.
Proof. apply keep_skip. Qed.

Lemma overwrite_within (d : string) (pos : nat) (s : string) :
  pos <= String.length d ->
  overwrite d pos s = keep pos d +:+ s +:+ skip (pos + String.length s) d.
Proof.
  intros H. destruct s as [|a s].
  - simpl. rewrite Nat.add_0_r. symmetry. apply keep_skip.
  - unfold overwrite. replace (pos - String.length d) with 0 by lia.
    reflexivity.
Qed.

(** A write on a writable handle succeeds, extends the permanent region by
    the bytes written and takes as many bytes off the tail. *)
Lemma WriteString_writable (service : string) (f : File) (s : string) :
  writable f ->
  exists f' : File,
    WriteString service f s = (f', String.length s, None)
    /\ writable f'
    /\ offset f' = offset f + String.length s
    /\ permanent f' = permanent f +:+ s
    /\ tail f' = skip (String.length s) (tail f).
Proof.
  intros Hw. pose proof (length_permanent f Hw) as Hlen.
  destruct Hw as [Hc Ho]. unfold WriteString. rewrite Hc.
  eexists. split; [reflexivity|].
  rewrite overwrite_within by assumption. fold (permanent f).
  remember (permanent f) as P eqn:HP.
  assert (HPs : String.length (P +:+ s) = offset f + String.length s)
    by (rewrite length_app; lia).
  unfold writable, permanent, tail; simpl.
  rewrite <- !app_assoc_s, <- !HPs.
  repeat split.
  - rewrite !length_app. lia.
  - apply keep_app.
  - rewrite skip_app, HPs. now rewrite skip_skip.
Qed.

(** Writing a block and seeking back over what was written leaves the
    permanent region as it was and puts the block at the head of the tail,
    in front of what the tail held beyond the length of the block. *)
Lemma write_seek_back (service : string) (f : File) (s : string) :
  writable f ->
  exists f1 f2 : File,
    WriteString service f s = (f1, String.length s, None)
    /\ SeekCurrent service f1 (- Z.of_nat (String.length s)) = (f2, None)
    /\ writable f2
    /\ permanent f2 = permanent f
    /\ tail f2 = s +:+ skip (String.length s) (tail f).
Proof.
  intros Hw. pose proof (length_permanent f Hw) as Hlen.
  destruct (WriteString_writable service f s Hw)
    as (f1 & Hwr & [Hc1 Ho1] & Hoff & Hperm & Htail).
  exists f1. eexists. split; [exact Hwr|].
  unfold SeekCurrent. rewrite Hc1, Hoff.
  destruct (Z.ltb_spec (Z.of_nat (offset f + String.length s)
                        + - Z.of_nat (String.length s)) 0) as [Hn|_]; [lia|].
  replace (Z.to_nat (Z.of_nat (offset f + String.length s)
                     + - Z.of_nat (String.length s))) with (offset f) by lia.
  split; [reflexivity|].
  assert (Hd : data f1 = permanent f +:+ (s +:+ skip (String.length s) (tail f))).
  { rewrite <- (permanent_tail f1), Hperm, Htail. apply app_assoc_s. }
  unfold writable, permanent, tail; simpl. rewrite Hd.
  repeat split.
  - rewrite length_app. lia.
  - rewrite <- Hlen at 1. apply keep_app.
  - rewrite <- Hlen at 1. apply skip_app.
Qed.

(** ** The logger: one call at a time *)

Section LoggerFacts.
Context {Time : Type}.
Variable timeString : Time -> string.
Variable wallClock : nat -> Time.
Variable canOpen : string -> bool.

Abbreviation Log := (Build.Log timeString canOpen).
Abbreviation logStatus := (Build.logStatus timeString canOpen).
Abbreviation logFile := (Build.logFile canOpen).
Abbreviation fileReady := (Build.fileReady canOpen).
Abbreviation statusLineOf := (Build.statusLineOf timeString).
Abbreviation nextStatuses := (Build.nextStatuses timeString).
Abbreviation toldAfter := (Build.toldAfter timeString).
Abbreviation logLine := (Build.logLine timeString).
Abbreviation extends := (Build.extends canOpen).
Abbreviation LogNow := (Build.LogNow timeString wallClock canOpen).
Abbreviation dump := (Build.dump timeString wallClock canOpen).
Abbreviation vertexStep := (Build.vertexStep timeString wallClock canOpen).
Abbreviation logStep := (Build.logStep timeString wallClock canOpen).
Abbreviation step := (Build.step timeString canOpen).
Abbreviation runEvents := (Build.runEvents timeString canOpen).
Abbreviation permanentLines := (Build.permanentLines timeString).

Lemma fileReady_writable (service : string) (l : flatfileLogger) :
  fileReady service l -> writable (fileOf service l).
Proof.
  unfold Build.fileReady, fileOf.
  destruct (openFiles l !! service) as [f|]; simpl; [auto|].
  intros _. split; simpl; auto.
Qed.

Lemma logFile_ready (service : string) (l : flatfileLogger) :
  fileReady service l ->
  logFile service l =
    (setFiles (<[service := fileOf service l]> (openFiles l)) l, None).
Proof.
  unfold Build.fileReady, Build.logFile, fileOf.
  destruct (openFiles l !! service) as [f|] eqn:E; simpl.
  - intros _. f_equal. destruct l; unfold setFiles; simpl in *.
    f_equal. symmetry. now apply insert_id.
  - intros ->. reflexivity.
Qed.

(** [logFile] fails only when the file is not open and cannot be opened;
    the logger is then unchanged. *)
Lemma logFile_fails (service : string) (l : flatfileLogger) (e : error) :
  (logFile service l).2 = Some e ->
  logFile service l = (l, Some (OsError "open" service))
  /\ openFiles l !! service = None /\ canOpen service = false.
Proof.
  unfold Build.logFile.
  destruct (openFiles l !! service) as [f|]; simpl; [discriminate|].
  destruct (canOpen service); simpl; [discriminate|].
  intros _. auto.
Qed.

(** [Log] on a file that can be written: the line is appended to the
    permanent region, and every listener is called once with the trimmed
    message. *)
Lemma Log_ready (service : string) (when : Time) (message : string)
      (l : flatfileLogger) :
  fileReady service l ->
  exists f' : File,
    Log service when message l =
      (withFile service f'
         (callAll service (Trim message crlf +:+ nl) l) l, None)
    /\ writable f'
    /\ permanent f' =
         permanent (fileOf service l) +:+ logLine when (Trim message crlf)
    /\ tail f' =
         skip (String.length (logLine when (Trim message crlf)))
              (tail (fileOf service l)).
Proof.
  intros Hr. pose proof (fileReady_writable _ _ Hr) as Hw.
  destruct (WriteString_writable service _
              (logLine when (Trim message crlf)) Hw)
    as (f' & Hwr & Hw' & _ & Hperm & Htail).
  exists f'. split; [|auto].
  unfold Build.Log. rewrite logFile_ready by assumption.
  unfold writeFile. simpl. rewrite lookup_insert_eq, Hwr.
  unfold notify, withFile, callAll, setFiles; simpl.
  now rewrite insert_insert_eq.
Qed.

Lemma shortID_in_range (id : string) :
  (HasPrefix id "sha256:" = true -> 19 <= String.length id) ->
  shortID id = Some (default id (shortID id)).
Proof.
  intros H. destruct (shortID id) as [x|] eqn:E; [reflexivity|].
  apply shortID_None in E. destruct E as [E1 E2]. specialize (H E1). lia.
Qed.

(** Lines 125-130 on a writable file *)
Lemma updateStatuses_ready (service : string) (status : @VertexStatus Time)
      (line : string) (l : flatfileLogger) (f : File) :
  openFiles l !! service = Some f -> writable f ->
  exists f0 : File,
    updateStatuses service status line l =
      mkLogger (if completes status
                then delete (vs_ID status) (currVertexStatuses l)
                else <[vs_ID status := line]> (currVertexStatuses l))
               (<[service := f0]> (openFiles l)) (logLineListeners l)
               (verbose l) (heard l) (ticks l)
    /\ writable f0
    /\ permanent f0 =
         permanent f +:+ (if completes status then line +:+ nl else EmptyString)
    /\ tail f0 =
         skip (String.length
                 (if completes status then line +:+ nl else EmptyString))
              (tail f).
Proof.
  intros Hf Hw. unfold updateStatuses, completes.
  destruct (vs_Completed status) as [c|].
  - destruct (WriteString_writable service f (line +:+ nl) Hw)
      as (f0 & Hwr & Hw0 & _ & Hp0 & Ht0).
    exists f0. split; [|auto].
    unfold writeFile. simpl. rewrite Hf, Hwr. reflexivity.
  - exists f. split; [|split; [assumption|]].
    + unfold setStatuses. f_equal. symmetry. now apply insert_id.
    + split; [now rewrite app_empty_r|reflexivity].
Qed.

(** Lines 131-155 on a writable file *)
Lemma rewriteBlock_ready (service statusText : string) (l : flatfileLogger)
      (f : File) :
  openFiles l !! service = Some f -> writable f ->
  let statuses := renderStatuses (currVertexStatuses l) in
  exists f2 : File,
    rewriteBlock service statusText l =
      Returned
        (withFile service f2
           (callAll service
              (fold_left (fun _ s => afterDate s) statuses statusText +:+ nl) l)
           l)
        None
    /\ writable f2
    /\ permanent f2 = permanent f
    /\ tail f2 =
         Join statuses +:+ skip (String.length (Join statuses)) (tail f).
Proof.
  intros Hf Hw statuses.
  destruct (write_seek_back service f (Join statuses) Hw)
    as (f1 & f2 & Hwr & Hsk & Hw2 & Hp2 & Ht2).
  exists f2. split; [|auto].
  unfold rewriteBlock. fold statuses.
  unfold writeFile. rewrite Hf, Hwr.
  unfold seekFile. simpl. rewrite lookup_insert_eq, Hsk.
  unfold notify, withFile, callAll, setFiles; simpl.
  now rewrite insert_insert_eq.
Qed.

(** [logStatus] on a file that can be written, for an id whose short id can
    be taken: the status map is updated, a completion appends its line to
    the permanent region, the block rendered from the new map is written
    at the head of the tail, in front of what the tail held beyond its
    length, and every listener is called once. *)
Lemma logStatus_ready (service : string) (status : @VertexStatus Time)
      (l : flatfileLogger) :
  fileReady service l ->
  (HasPrefix (vs_ID status) "sha256:" = true ->
   19 <= String.length (vs_ID status)) ->
  let m' := nextStatuses status (currVertexStatuses l) in
  let line :=
    if completes status then statusLineOf status +:+ nl else EmptyString in
  let block := Join (renderStatuses m') in
  exists f' : File,
    logStatus service status l =
      Returned
        (mkLogger m' (<[service := f']> (openFiles l)) (logLineListeners l)
           (verbose l)
           (heard l
              ++ callAll service (toldAfter status (currVertexStatuses l)) l)
           (ticks l))
        None
    /\ writable f'
    /\ permanent f' = permanent (fileOf service l) +:+ line
    /\ tail f' =
         block +:+ skip (String.length block)
                     (skip (String.length line) (tail (fileOf service l))).
Proof.
  intros Hr Hid m' line block.
  pose proof (fileReady_writable _ _ Hr) as Hw.
  set (l1 := setFiles (<[service := fileOf service l]> (openFiles l)) l).
  assert (Hf1 : openFiles l1 !! service = Some (fileOf service l))
    by apply lookup_insert_eq.
  destruct (updateStatuses_ready service status (statusLineOf status) l1 _ Hf1 Hw)
    as (f0 & Hup & Hw0 & Hp0 & Ht0).
  set (l2 := updateStatuses service status (statusLineOf status) l1) in *.
  assert (Hf2 : openFiles l2 !! service = Some f0)
    by (rewrite Hup; apply lookup_insert_eq).
  destruct (rewriteBlock_ready service
              (statusTextOf (default (vs_ID status) (shortID (vs_ID status)))
                 status) l2 f0 Hf2 Hw0)
    as (f2 & Hrw & Hw2 & Hp2 & Ht2).
  assert (Hm : currVertexStatuses l2 = m') by (rewrite Hup; reflexivity).
  rewrite Hm in Hrw, Ht2.
  exists f2. split; [|split; [assumption|split]].
  - unfold Build.logStatus. rewrite logFile_ready by assumption.
    rewrite (shortID_in_range _ Hid). cbv zeta. fold l1.
    change (Build.statusLine timeString (vs_Timestamp status)
              (statusTextOf (default (vs_ID status) (shortID (vs_ID status)))
                 status)) with (statusLineOf status).
    fold l2. rewrite Hrw. f_equal.
    unfold withFile, callAll, Build.toldAfter. fold m'.
    rewrite Hup; simpl. rewrite !insert_insert_eq. reflexivity.
  - rewrite Hp2, Hp0. reflexivity.
  - rewrite Ht2, Ht0. reflexivity.
Qed.

(** The lines of the block are the values of the map, each with its line
    feed. *)
Lemma elem_of_renderStatuses (m : gmap string string) (s : string) :
  s ∈ renderStatuses m <->
  exists (id v : string), m !! id = Some v /\ s = v +:+ nl.
Proof.
  unfold renderStatuses. rewrite merge_sort_Permutation.
  split.
  - intros H. apply list_elem_of_In, in_map_iff in H.
    destruct H as (v & <- & Hv). apply in_map_iff in Hv.
    destruct Hv as ([id v'] & <- & Hin). simpl.
    exists id, v'. split; [|reflexivity].
    apply elem_of_map_to_list. now apply list_elem_of_In.
  - intros (id & v & Hm & ->).
    apply list_elem_of_In, in_map_iff. exists v. split; [reflexivity|].
    apply in_map_iff. exists (id, v). split; [reflexivity|].
    apply list_elem_of_In. now apply elem_of_map_to_list.
Qed.

Lemma fileOf_insert (service : string) (f : File) (l : flatfileLogger)
      (m : gmap string string) (ls : list nat) (v : bool)
      (h : list (nat * string * string)) (t : nat) :
  fileOf service (mkLogger m (<[service := f]> (openFiles l)) ls v h t) = f.
Proof. unfold fileOf. simpl. now rewrite lookup_insert_eq. Qed.


(** C10.  [logStatus] panics exactly when the file of the service is at
    hand and the id starts with ["sha256:"] and has fewer than 19 bytes:
    the slice [status.ID[7:19]] is then out of range.  With at least 19
    bytes, or without the prefix, it returns. *)
Theorem logStatus_panics_iff (service : string) (status : @VertexStatus Time)
        (l : flatfileLogger) :
  (exists l' : flatfileLogger, logStatus service status l = Panicked l')
  <-> (logFile service l).2 = None
      /\ HasPrefix (vs_ID status) "sha256:" = true
      /\ String.length (vs_ID status) < 19.
Proof.
  unfold Build.logStatus.
  destruct (logFile service l) as [l1 [e|]]; simpl.
  - split; [intros [l' H]; discriminate|intros [H _]; discriminate].
  - destruct (shortID (vs_ID status)) as [idText|] eqn:E.
    + split.
      * intros [l' H]. unfold rewriteBlock in H.
        destruct (writeFile _ _ _) as [[l3 n] [e|]]; [discriminate|].
        destruct (seekFile _ _ _) as [l4 [e|]]; discriminate.
      * intros (_ & H1 & H2).
        assert (shortID (vs_ID status) = None) by (apply shortID_None; auto).
        congruence.
    + split; [|intros _; now exists l1].
      intros _. split; [reflexivity|]. now apply shortID_None.
Qed.

(** ** The logger: runs of calls *)

Lemma fileReady_insert (service : string) (f : File) (l : flatfileLogger)
      (m : gmap string string) (ls : list nat) (v : bool)
      (h : list (nat * string * string)) (t : nat) :
  writable f ->
  fileReady service (mkLogger m (<[service := f]> (openFiles l)) ls v h t).
Proof. intros H. unfold Build.fileReady. simpl. now rewrite lookup_insert_eq. Qed.

Lemma extends_refl (service : string) (l : flatfileLogger) :
  fileReady service l -> extends service EmptyString 0 l l.
Proof.
  intros H. unfold Build.extends. rewrite app_empty_r.
  repeat split; auto.
Qed.

Lemma extends_trans (service a b : string) (n k : nat)
      (l l1 l2 : flatfileLogger) :
  extends service a n l l1 -> extends service b k l1 l2 ->
  extends service (a +:+ b) (n + k) l l2.
Proof.
  intros (_ & Hp1 & Hv1 & Hl1 & Ht1) (Hr2 & Hp2 & Hv2 & Hl2 & Ht2).
  unfold Build.extends. rewrite Hp2, Hp1, Hv2, Hl2, Ht2, Ht1, app_assoc_s.
  repeat split; auto. lia.
Qed.

Lemma Log_extends (service : string) (when : Time) (message : string)
      (l : flatfileLogger) :
  fileReady service l ->
  exists l' : flatfileLogger,
    Log service when message l = (l', None)
    /\ extends service (logLine when (Trim message crlf)) 0 l l'
    /\ currVertexStatuses l' = currVertexStatuses l
    /\ heard l' = (heard l ++ callAll service (Trim message crlf +:+ nl) l)%list.
Proof.
  intros Hr.
  destruct (Log_ready service when message l Hr) as (f' & Hrun & Hw & Hp & _).
  eexists. split; [exact Hrun|]. unfold Build.extends, withFile.
  rewrite fileOf_insert. cbn [verbose ticks logLineListeners heard
                               currVertexStatuses].
  repeat split; auto. now apply fileReady_insert.
Qed.

Lemma LogNow_extends (service message : string) (l : flatfileLogger) :
  fileReady service l ->
  exists l' : flatfileLogger,
    LogNow service message l = (l', None)
    /\ extends service
         (logLine (wallClock (ticks l)) (Trim message crlf)) 1 l l'.
Proof.
  intros Hr. unfold Build.LogNow, Now.
  match goal with
  | |- context [Log _ _ _ ?l0] =>
      destruct (Log_extends service (wallClock (ticks l)) message l0 Hr)
        as (l' & Hrun & (Hr' & Hp & Hv & Hl & Ht) & _)
  end.
  exists l'. split; [exact Hrun|].
  unfold Build.extends, fileOf in *. simpl in *.
  repeat split; auto. lia.
Qed.

(** The verbose dump: one more permanent line when the flag is set. *)
Lemma dump_extends (service message : string) (l : flatfileLogger) :
  fileReady service l ->
  extends service
    (if verbose l
     then logLine (wallClock (ticks l)) (Trim message crlf) else EmptyString)
    (if verbose l then 1 else 0) l (dump service message l).
Proof.
  intros Hr. unfold Build.dump. destruct (verbose l) eqn:E.
  - destruct (LogNow_extends service message l Hr) as (l' & -> & H).
    exact H.
  - now apply extends_refl.
Qed.

(** C5.  A vertex event on a file that can be written returns without
    error.  If the name of the vertex does not start with ["[internal]"], it
    appends to the permanent region: when the error of the vertex is not
    empty, first the line of the error text, [": LAYERID="] and the digest;
    then the line of the name, after ["cached: "] when the vertex is cached.
    If the name starts with ["[internal]"], it appends neither.  When the
    verbose flag is set, the dump of the vertex is appended before, whatever
    the name.  The messages are trimmed as [Log] trims them, and the times
    are successive readings of the clock. *)
Theorem vertexStep_lines (service : string) (v : Vertex) (l : flatfileLogger) :
  fileReady service l ->
  let t1 := ticks l + (if verbose l then 1 else 0) in
  let t2 := t1 + (if String.eqb (v_Error v) EmptyString then 0 else 1) in
  let dumpLine :=
    if verbose l
    then logLine (wallClock (ticks l)) (Trim (vertexDump v) crlf)
    else EmptyString in
  let errorLine :=
    if String.eqb (v_Error v) EmptyString then EmptyString
    else logLine (wallClock t1)
           (Trim (v_Error v +:+ ": LAYERID=" +:+ v_Digest v) crlf) in
  let nameLine :=
    logLine (wallClock t2)
      (Trim ((if v_Cached v then "cached: " else EmptyString) +:+ v_Name v)
            crlf) in
  exists l' : flatfileLogger,
    vertexStep service v l = Returned l' None
    /\ fileReady service l'
    /\ permanent (fileOf service l') =
         permanent (fileOf service l)
           +:+ (dumpLine
                  +:+ (if HasPrefix (v_Name v) "[internal]" then EmptyString
                       else errorLine +:+ nameLine)).
Proof.
  intros Hr t1 t2 dumpLine errorLine nameLine.
  pose proof (dump_extends service (vertexDump v) l Hr) as Hd.
  fold dumpLine in Hd.
  unfold Build.vertexStep. fold (dump service (vertexDump v) l).
  set (l1 := dump service (vertexDump v) l) in *.
  assert (Ht1 : ticks l1 = t1) by (destruct Hd as (_ & _ & _ & _ & ->); reflexivity).
  rewrite Index_zero.
  destruct (HasPrefix (v_Name v) "[internal]"); cbn [negb].
  - exists l1. split; [reflexivity|].
    destruct Hd as (Hr1 & Hp1 & _). rewrite app_empty_r. auto.
  - assert (Hname : forall l2 : flatfileLogger,
               extends service (dumpLine +:+ errorLine) (t2 - ticks l) l l2 ->
               ticks l2 = t2 ->
               exists l' : flatfileLogger,
                 orReturn "Could not write to %s's logs: %s" service
                   (LogNow service
                      (if v_Cached v then "cached: " +:+ v_Name v
                       else v_Name v) l2)
                   (fun l3 => Returned l3 None) = Returned l' None
                 /\ fileReady service l'
                 /\ permanent (fileOf service l') =
                      permanent (fileOf service l)
                        +:+ (dumpLine +:+ (errorLine +:+ nameLine))).
    { intros l2 H2 Hticks.
      destruct (LogNow_extends service
                  (if v_Cached v then "cached: " +:+ v_Name v else v_Name v)
                  l2 (proj1 H2)) as (l' & Hrun & H3).
      exists l'. rewrite Hrun. split; [reflexivity|].
      destruct (extends_trans _ _ _ _ _ _ _ _ H2 H3) as (Hr' & Hp' & _).
      split; [exact Hr'|]. rewrite Hp', Hticks, app_assoc_s.
      unfold nameLine. now destruct (v_Cached v). }
    unfold errorLine, t2 in *.
    destruct (String.eqb (v_Error v) EmptyString) eqn:E; cbn [negb].
    + apply Hname.
      * rewrite app_empty_r. replace (t1 + 0 - ticks l)
          with (if verbose l then 1 else 0) by (unfold t1; lia).
        exact Hd.
      * lia.
    + destruct (LogNow_extends service
                  (v_Error v +:+ ": LAYERID=" +:+ v_Digest v) l1 (proj1 Hd))
        as (l2 & Hrun & H2).
      rewrite Hrun. cbn [orReturn]. apply Hname.
      * rewrite Ht1 in H2.
        replace (t1 + 1 - ticks l) with ((if verbose l then 1 else 0) + 1)
          by (unfold t1; lia).
        exact (extends_trans _ _ _ _ _ _ _ _ Hd H2).
      * destruct H2 as (_ & _ & _ & _ & ->). lia.
Qed.

(** C6 (as amended).  A raw log-line event on a file that can be written
    returns without error and appends to the permanent region (after the
    dump, when the verbose flag is set) one line: the time of the event
    itself, not a reading of the clock, and the data of the event without
    the carriage returns and line feeds at its head and at its end.  The
    clock is read for the dump only. *)
Theorem logStep_line (service : string) (lg : @VertexLog Time)
        (l : flatfileLogger) :
  fileReady service l ->
  let dumpLine :=
    if verbose l
    then logLine (wallClock (ticks l)) (Trim (logDump lg) crlf)
    else EmptyString in
  let message := Trim (l_Data lg) crlf in
  exists l' : flatfileLogger,
    logStep service lg l = Returned l' None
    /\ permanent (fileOf service l') =
         permanent (fileOf service l)
           +:+ (dumpLine
                  +:+ ("[" +:+ timeString (l_Timestamp lg) +:+ "] "
                         +:+ message +:+ nl))
    /\ ticks l' = ticks l + (if verbose l then 1 else 0)
    /\ exists pre post : string,
         l_Data lg = pre +:+ message +:+ post
         /\ allIn crlf pre = true /\ allIn crlf post = true
         /\ startsIn crlf message = false /\ endsIn crlf message = false.
Proof.
  intros Hr dumpLine message.
  pose proof (dump_extends service (logDump lg) l Hr) as Hd.
  fold dumpLine in Hd. unfold Build.logStep.
  fold (dump service (logDump lg) l).
  set (l1 := dump service (logDump lg) l) in *.
  destruct (Log_extends service (l_Timestamp lg) (Trim (l_Data lg) crlf) l1
              (proj1 Hd)) as (l' & Hrun & H2 & _).
  exists l'. rewrite Hrun. split; [reflexivity|].
  rewrite Trim_idempotent in H2.
  destruct (extends_trans _ _ _ _ _ _ _ _ Hd H2) as (_ & Hp & _ & _ & Ht).
  split; [exact Hp|]. split; [lia|]. apply Trim_split.
Qed.

Lemma step_extends (service : string) (ev : @event Time) (l : flatfileLogger) :
  fileReady service l -> idInRange ev ->
  exists l' : flatfileLogger,
    step service ev l = Returned l' None
    /\ extends service (default EmptyString (Build.permanentLine timeString ev))
         0 l l'
    /\ (isLog ev = false ->
        HasPrefix (tail (fileOf service l'))
                  (Join (renderStatuses (currVertexStatuses l'))) = true).
Proof.
  intros Hr Hid. destruct ev as [when message|status]; simpl.
  - destruct (Log_extends service when message l Hr) as (l' & -> & H & _).
    exists l'. split; [reflexivity|]. split; [exact H|discriminate].
  - destruct (logStatus_ready service status l Hr Hid)
      as (f' & Hrun & Hw & Hp & Ht).
    eexists. split; [exact Hrun|]. unfold Build.extends.
    rewrite fileOf_insert. cbn [verbose ticks logLineListeners currVertexStatuses].
    split; [|intros _; rewrite Ht; apply HasPrefix_app].
    split; [now apply fileReady_insert|]. split; [|auto].
    rewrite Hp. now destruct (completes status).
Qed.

Lemma length_permanentLines (evs : list (@event Time)) :
  length (permanentLines evs) =
  length (List.filter isLog evs) + length (List.filter isCompletion evs).
Proof.
  unfold Build.permanentLines.
  induction evs as [|[when message|status] evs IH]; simpl; auto.
  destruct (completes status); simpl; rewrite ?Nat.add_succ_r;
    [f_equal|]; exact IH.
Qed.

Lemma length_completedIds (evs : list (@event Time)) :
  length (completedIds evs) = length (List.filter isCompletion evs).
Proof.
  unfold completedIds.
  induction evs as [|[when message|status] evs IH]; simpl; auto.
  destruct (completes status); simpl; [f_equal|]; exact IH.
Qed.

Lemma lineCount_app (s t : string) :
  lineCount (s +:+ t) = lineCount s + lineCount t.
Proof.
  induction s as [|a s IH]; [reflexivity|].
  rewrite app_cons. cbn [lineCount]. rewrite IH. lia.
Qed.

Lemma lineCount_Join (lines : list string) :
  Forall (fun line => lineCount line = 1) lines ->
  lineCount (Join lines) = length lines.
Proof.
  induction 1 as [|line lines H1 _ IH]; [reflexivity|].
  unfold Join in *. cbn [fold_right length].
  now rewrite lineCount_app, H1, IH.
Qed.

Lemma forEach_app {A : Type} (body : A -> flatfileLogger -> outcome)
      (xs ys : list A) (l : flatfileLogger) :
  forEach body (xs ++ ys) l =
  match forEach body xs l with
  | Returned l' None => forEach body ys l'
  | o => o
  end.
Proof.
  revert l. induction xs as [|x xs IH]; intros l; [reflexivity|].
  cbn [forEach app]. destruct (body x l) as [l' [e|]|l']; auto.
Qed.

(** A run on a file that can be written returns without error and appends
    the permanent lines of its events. *)
Lemma runEvents_ready (service : string) (evs : list (@event Time))
      (l : flatfileLogger) :
  fileReady service l -> Forall idInRange evs ->
  exists l' : flatfileLogger,
    runEvents service evs l = Returned l' None
    /\ extends service (Join (permanentLines evs)) 0 l l'.
Proof.
  intros Hr Hids. revert l Hr.
  induction Hids as [|ev evs Hid Hids IH]; intros l Hr.
  - exists l. split; [reflexivity|]. now apply extends_refl.
  - destruct (step_extends service ev l Hr Hid) as (l1 & Hstep & H1 & _).
    destruct (IH l1 (proj1 H1)) as (l' & Hrest & H2).
    unfold Build.runEvents in *. cbn [forEach]. rewrite Hstep.
    exists l'. split; [exact Hrest|].
    replace (Join (permanentLines (ev :: evs)))
      with (default EmptyString (Build.permanentLine timeString ev)
              +:+ Join (permanentLines evs)).
    + exact (extends_trans _ _ _ _ _ _ _ _ H1 H2).
    + unfold Build.permanentLines. cbn [omap list_omap].
      now destruct (Build.permanentLine timeString ev).
Qed.


(** The loops of [ProcessStatus] on a single event are their bodies. *)
Lemma ProcessStatus_one_vertex (service : string) (v : Vertex)
      (l : flatfileLogger) :
  Build.ProcessStatus timeString wallClock canOpen service
    (mkSolveStatus [v] [] []) l
  = vertexStep service v l.
Proof.
  unfold Build.ProcessStatus. cbn [Vertexes Statuses Logs forEach].
  destruct (vertexStep service v l) as [l' [e|]|l']; reflexivity.
Qed.

Lemma ProcessStatus_one_log (service : string) (lg : @VertexLog Time)
      (l : flatfileLogger) :
  Build.ProcessStatus timeString wallClock canOpen service
    (mkSolveStatus [] [] [lg]) l
  = logStep service lg l.
Proof.
  unfold Build.ProcessStatus. cbn [Vertexes Statuses Logs forEach].
  destruct (logStep service lg l) as [l' [e|]|l']; reflexivity.
Qed.

(** ** The block: its order, and the text after the date *)

#[local] Instance statusLe_total : Total statusLe.
Proof. intros a b. unfold statusLe. apply String.leb_total. Qed.

(** The first [sep] of a text is at most where a [sep] is. *)
Lemma Index_le (p sep r : string) :
  (0 <= Index (p +:+ sep +:+ r) sep <= Z.of_nat (String.length p))%Z.
Proof.
  induction p as [|a p IH].
  - rewrite app_nil_l.
    assert (E : Index (sep +:+ r) sep = 0%Z).
    { destruct (sep +:+ r) eqn:Es; cbn [Index]; rewrite <- Es;
        now rewrite HasPrefix_app. }
    rewrite E. simpl. lia.
  - rewrite app_cons. cbn [Index String.length].
    destruct (HasPrefix _ sep); [lia|].
    destruct (Z.ltb_spec (Index (p +:+ sep +:+ r) sep) 0); lia.
Qed.

(** X2.  The slice of [afterDate] (lines 136, 137 and 151) is in range for
    every line of the block: a status line and its line feed. *)
Lemma afterDate_in_range (when : Time) (text : string) :
  Z.to_nat (Index (Build.statusLine timeString when text +:+ nl) "]" + 2)
  <= String.length (Build.statusLine timeString when text +:+ nl).
Proof.
  unfold Build.statusLine.
  replace (("[" +:+ timeString when +:+ "] " +:+ text) +:+ nl)
    with (("[" +:+ timeString when) +:+ "]" +:+ (" " +:+ text +:+ nl))
    by (rewrite !app_assoc_s; reflexivity).
  pose proof (Index_le ("[" +:+ timeString when) "]" (" " +:+ text +:+ nl)) as H.
  rewrite !length_app in *. simpl String.length in *. lia.
Qed.



(** X4.  [Close] closes every file and keeps it in [openFiles]: closing
    twice is closing once, and a later [Log] on a service whose file was
    open fails at its write. *)
Theorem Close_idempotent (service : string) (when : Time) (message : string)
        (l : flatfileLogger) :
  Close (Close l) = Close l
  /\ (is_Some (openFiles l !! service) ->
      (Log service when message (Close l)).2 = Some (OsError "write" service)).
Proof.
  split.
  - unfold Close, setFiles. simpl. f_equal.
    rewrite <- map_fmap_compose. reflexivity.
  - intros [f Hf]. unfold Build.Log, Build.logFile, Close. simpl.
    rewrite lookup_fmap, Hf. simpl.
    unfold writeFile. simpl. rewrite lookup_fmap, Hf. reflexivity.
Qed.

(** ** The listeners *)

Lemma logFile_sameEars (service : string) (l : flatfileLogger) :
  sameEars l (logFile service l).1.
Proof.
  unfold Build.logFile, sameEars.
  destruct (openFiles l !! service); [auto|].
  destruct (canOpen service); simpl; auto.
Qed.

Lemma writeFile_sameEars (service s : string) (l : flatfileLogger) :
  sameEars l (writeFile service s l).1.1.
Proof.
  unfold writeFile, sameEars.
  destruct (openFiles l !! service) as [f|]; [|auto].
  destruct (WriteString service f s) as [[f' n] e]. simpl. auto.
Qed.

Lemma seekFile_sameEars (service : string) (delta : Z) (l : flatfileLogger) :
  sameEars l (seekFile service delta l).1.
Proof.
  unfold seekFile, sameEars.
  destruct (openFiles l !! service) as [f|]; [|auto].
  destruct (SeekCurrent service f delta) as [f' e]. simpl. auto.
Qed.

Lemma told_last (statuses : list string) (statusText : string) :
  fold_left (fun _ s => afterDate s) statuses statusText =
  match last statuses with
  | Some s => afterDate s
  | None => statusText
  end.
Proof.
  revert statusText.
  induction statuses as [|s statuses IH]; intros statusText; [reflexivity|].
  cbn [fold_left]. rewrite IH. destruct statuses as [|s0 st]; [reflexivity|].
  change (last (s :: s0 :: st)) with (last (s0 :: st)).
  destruct (last (s0 :: st)) eqn:E; [reflexivity|].
  apply last_None in E. discriminate.
Qed.

(** [Log] calls every listener once, with the trimmed message, as soon as
    [logFile] gave a file, before it looks at the error of the write. *)
Lemma Log_heard (service : string) (when : Time) (message : string)
      (l : flatfileLogger) :
  heard (Log service when message l).1 =
  (heard l ++
   match (logFile service l).2 with
   | None => callAll service (Trim message crlf +:+ nl) l
   | Some _ => []
   end)%list.
Proof.
  unfold Build.Log.
  pose proof (logFile_sameEars service l) as (Hh & Hl & _).
  destruct (logFile service l) as [l1 [e|]]; simpl in *.
  - now rewrite Hh, app_nil_r.
  - pose proof (writeFile_sameEars service
                  (logLine when (Trim message crlf)) l1) as (Hh2 & Hl2 & _).
    destruct (writeFile service _ l1) as [[l2 n] e]. simpl in *.
    unfold callAll. now rewrite Hh2, Hl2, Hh, Hl.
Qed.

(** [logStatus] calls every listener once when it returns without error,
    and not at all otherwise. *)
Lemma logStatus_heard (service : string) (status : @VertexStatus Time)
      (l : flatfileLogger) :
  match logStatus service status l with
  | Returned l' None =>
      heard l' =
      (heard l ++ callAll service (toldAfter status (currVertexStatuses l)) l)%list
  | Returned l' (Some _) => heard l' = heard l
  | Panicked l' => heard l' = heard l
  end.
Proof.
  unfold Build.logStatus.
  pose proof (logFile_sameEars service l) as (Hh & Hl & Hm).
  destruct (logFile service l) as [l1 [e|]]; simpl in *; [exact Hh|].
  destruct (shortID (vs_ID status)) as [idText|] eqn:Eid; [|exact Hh].
  set (text := statusTextOf idText status).
  set (l2 := updateStatuses service status
               (Build.statusLine timeString (vs_Timestamp status) text) l1).
  assert (H2 : heard l2 = heard l1 /\ logLineListeners l2 = logLineListeners l1
               /\ currVertexStatuses l2 =
                  nextStatuses status (currVertexStatuses l)).
  { unfold l2, updateStatuses, Build.nextStatuses, completes,
      Build.statusLineOf.
    rewrite Eid. cbn [default]. fold text.
    destruct (vs_Completed status) as [c|].
    - match goal with
      | |- context [writeFile ?sv ?s ?l0] =>
          pose proof (writeFile_sameEars sv s l0) as (A & B & C)
      end.
      rewrite A, B, C. simpl. now rewrite Hm.
    - simpl. now rewrite Hm. }
  destruct H2 as (Hh2 & Hl2 & Hm2).
  unfold rewriteBlock.
  pose proof (writeFile_sameEars service
                (Join (renderStatuses (currVertexStatuses l2))) l2)
    as (Hh3 & Hl3 & _).
  destruct (writeFile service _ l2) as [[l3 n] [e|]]; simpl in *;
    [congruence|].
  pose proof (seekFile_sameEars service (- Z.of_nat n) l3) as (Hh4 & Hl4 & _).
  destruct (seekFile service _ l3) as [l4 [e|]]; simpl in *; [congruence|].
  unfold callAll, Build.toldAfter. rewrite Eid. cbn [default]. fold text.
  rewrite Hh4, Hl4, Hh3, Hl3, Hh2, Hl2, Hh, Hl, Hm2. reflexivity.
Qed.

(** C3 (as amended).  Every registered listener is called exactly once by
    a call of [Log] that commits its line, with the trimmed message and a
    line feed, and not at all by one for which [logFile] fails.  Every
    registered listener is called exactly once by a call of [logStatus]
    that returns without error, also when it commits the line of a
    completion, which has no call of its own, and not at all by one that
    returns an error or panics; it is told the last line of the sorted
    block, after its date (the text of the event itself when the block is
    empty). *)
Theorem listeners_called (service : string) (l : flatfileLogger) :
  (forall (when : Time) (message : string),
      ((Log service when message l).2 = None ->
       heard (Log service when message l).1 =
       (heard l ++
        map (fun i => (i, service, Trim message crlf +:+ nl))
            (logLineListeners l))%list)
      /\ ((logFile service l).2 <> None ->
          heard (Log service when message l).1 = heard l))
  /\ (forall status : @VertexStatus Time,
        match logStatus service status l with
        | Returned l' None =>
            heard l' =
            (heard l ++
             map (fun i =>
                    (i, service, toldAfter status (currVertexStatuses l)))
                 (logLineListeners l))%list
        | Returned l' (Some _) => heard l' = heard l
        | Panicked l' => heard l' = heard l
        end)
  /\ (forall (status : @VertexStatus Time) (m : gmap string string),
        toldAfter status m =
        match last (renderStatuses (nextStatuses status m)) with
        | Some s => afterDate s
        | None =>
            statusTextOf (default (vs_ID status) (shortID (vs_ID status)))
                         status
        end +:+ nl).
Proof.
  split; [|split].
  - intros when message. rewrite Log_heard. split.
    + intros Hnil.
      destruct (logFile service l) as [l1 [e|]] eqn:E; [|reflexivity].
      unfold Build.Log in Hnil. rewrite E in Hnil. discriminate.
    + intros Hfail.
      destruct ((logFile service l).2); [apply app_nil_r|contradiction].
  - intros status. apply logStatus_heard.
  - intros status m. unfold Build.toldAfter. now rewrite told_last.
Qed.

(** ** One service and the others *)

Abbreviation ProcessStatus := (Build.ProcessStatus timeString wallClock canOpen).
Abbreviation statusStep := (Build.statusStep timeString wallClock canOpen).

(** A relation between loggers that every pass of a loop keeps is kept by
    the loop, whether it ends, returns an error or panics. *)
Lemma forEach_rel {A : Type} (R : flatfileLogger -> flatfileLogger -> Prop)
      (body : A -> flatfileLogger -> outcome) :
  (forall l, R l l) ->
  (forall l1 l2 l3, R l1 l2 -> R l2 l3 -> R l1 l3) ->
  (forall x l, R l (loggerOf (body x l))) ->
  forall (xs : list A) (l : flatfileLogger), R l (loggerOf (forEach body xs l)).
Proof.
  intros Hrefl Htrans Hbody xs.
  induction xs as [|x xs IH]; intros l; [apply Hrefl|].
  cbn [forEach]. specialize (Hbody x l).
  destruct (body x l) as [l' [e|]|l']; simpl in *; auto.
  exact (Htrans _ _ _ Hbody (IH l')).
Qed.

Lemma logFile_other (a b : string) (l : flatfileLogger) :
  a <> b -> openFiles (logFile a l).1 !! b = openFiles l !! b.
Proof.
  intros Hab. unfold Build.logFile.
  destruct (openFiles l !! a); [reflexivity|].
  destruct (canOpen a); simpl; [|reflexivity].
  now rewrite lookup_insert_ne.
Qed.

Lemma writeFile_other (a b s : string) (l : flatfileLogger) :
  a <> b -> openFiles (writeFile a s l).1.1 !! b = openFiles l !! b.
Proof.
  intros Hab. unfold writeFile.
  destruct (openFiles l !! a) as [f|]; [|reflexivity].
  destruct (WriteString a f s) as [[f' n] e]. simpl.
  now rewrite lookup_insert_ne.
Qed.

Lemma seekFile_other (a b : string) (delta : Z) (l : flatfileLogger) :
  a <> b -> openFiles (seekFile a delta l).1 !! b = openFiles l !! b.
Proof.
  intros Hab. unfold seekFile.
  destruct (openFiles l !! a) as [f|]; [|reflexivity].
  destruct (SeekCurrent a f delta) as [f' e]. simpl.
  now rewrite lookup_insert_ne.
Qed.

Lemma Log_other (a b : string) (when : Time) (message : string)
      (l : flatfileLogger) :
  a <> b -> openFiles (Log a when message l).1 !! b = openFiles l !! b.
Proof.
  intros Hab. unfold Build.Log.
  pose proof (logFile_other a b l Hab) as H1.
  destruct (logFile a l) as [l1 [e|]]; simpl in *; [exact H1|].
  pose proof (writeFile_other a b (logLine when (Trim message crlf)) l1 Hab)
    as H2.
  destruct (writeFile a _ l1) as [[l2 n] e]. simpl in *. congruence.
Qed.

Lemma logStatus_other (a b : string) (status : @VertexStatus Time)
      (l : flatfileLogger) :
  a <> b ->
  openFiles (loggerOf (logStatus a status l)) !! b = openFiles l !! b.
Proof.
  intros Hab. unfold Build.logStatus.
  pose proof (logFile_other a b l Hab) as H1.
  destruct (logFile a l) as [l1 [e|]]; simpl in *; [exact H1|].
  destruct (shortID (vs_ID status)) as [idText|]; [|exact H1].
  set (l2 := updateStatuses a status _ l1).
  assert (H2 : openFiles l2 !! b = openFiles l !! b).
  { unfold l2, updateStatuses. destruct (vs_Completed status).
    - rewrite writeFile_other by assumption. exact H1.
    - exact H1. }
  unfold rewriteBlock.
  pose proof (writeFile_other a b
                (Join (renderStatuses (currVertexStatuses l2))) l2 Hab) as H3.
  destruct (writeFile a _ l2) as [[l3 n] [e|]]; simpl in *; [congruence|].
  pose proof (seekFile_other a b (- Z.of_nat n) l3 Hab) as H4.
  destruct (seekFile a _ l3) as [l4 [e|]]; simpl in *; congruence.
Qed.

Lemma dump_other (a b message : string) (l : flatfileLogger) :
  a <> b -> openFiles (dump a message l) !! b = openFiles l !! b.
Proof.
  intros Hab. unfold Build.dump, Build.LogNow, Now.
  destruct (verbose l); [|reflexivity].
  now rewrite Log_other.
Qed.

Lemma LogNow_other (a b message : string) (l : flatfileLogger) :
  a <> b -> openFiles (LogNow a message l).1 !! b = openFiles l !! b.
Proof. intros Hab. unfold Build.LogNow, Now. now rewrite Log_other. Qed.

(** X8.  A call for one service leaves the file of every other service as
    it is: [Log], [logStatus] and [ProcessStatus] open, write and move the
    handle of the file of their own service only, whether they return, fail
    or panic. *)
Theorem other_services_untouched (a b : string) (l : flatfileLogger) :
  a <> b ->
  (forall (when : Time) (message : string),
      openFiles (Log a when message l).1 !! b = openFiles l !! b)
  /\ (forall status : @VertexStatus Time,
        openFiles (loggerOf (logStatus a status l)) !! b = openFiles l !! b)
  /\ (forall status : @SolveStatus Time,
        openFiles (loggerOf (ProcessStatus a status l)) !! b
        = openFiles l !! b).
Proof.
  intros Hab. split; [|split].
  - intros when message. now apply Log_other.
  - intros status. now apply logStatus_other.
  - intros status.
    set (R := fun l1 l2 : flatfileLogger =>
                openFiles l2 !! b = openFiles l1 !! b).
    assert (Hrefl : forall l0, R l0 l0) by reflexivity.
    assert (Htrans : forall l1 l2 l3, R l1 l2 -> R l2 l3 -> R l1 l3)
      by (unfold R; intros; congruence).
    assert (Hv : forall v l0, R l0 (loggerOf (vertexStep a v l0))).
    { intros v l0. unfold R, Build.vertexStep.
      pose proof (dump_other a b (vertexDump v) l0 Hab) as Hd.
      fold (dump a (vertexDump v) l0).
      set (l1 := dump a (vertexDump v) l0) in *.
      destruct (negb (Index (v_Name v) "[internal]" =? 0)%Z); [|exact Hd].
      assert (Hk : forall l2,
                 openFiles l2 !! b = openFiles l0 !! b ->
                 openFiles
                   (loggerOf
                      (orReturn "Could not write to %s's logs: %s" a
                         (LogNow a (if v_Cached v then "cached: " +:+ v_Name v
                                    else v_Name v) l2)
                         (fun l3 => Returned l3 None))) !! b
                 = openFiles l0 !! b).
      { intros l2 H2.
        pose proof (LogNow_other a b (if v_Cached v then "cached: " +:+ v_Name v
                                      else v_Name v) l2 Hab) as H3.
        destruct (LogNow a _ l2) as [l3 [e|]]; simpl in *; congruence. }
      destruct (negb (String.eqb (v_Error v) EmptyString)); [|now apply Hk].
      pose proof (LogNow_other a b
                    (v_Error v +:+ ": LAYERID=" +:+ v_Digest v) l1 Hab) as H2.
      destruct (LogNow a _ l1) as [l2 [e|]]; cbn [orReturn].
      - simpl in *. congruence.
      - apply Hk. simpl in H2. congruence. }
    assert (Hs : forall st l0, R l0 (loggerOf (statusStep a st l0))).
    { intros st l0. unfold R, Build.statusStep.
      pose proof (dump_other a b (statusDump st) l0 Hab) as Hd.
      fold (dump a (statusDump st) l0).
      set (l1 := dump a (statusDump st) l0) in *.
      pose proof (logStatus_other a b st l1 Hab) as H2.
      destruct (logStatus a st l1) as [l2 [e|]|l2]; simpl in *; congruence. }
    assert (Hl : forall lg l0, R l0 (loggerOf (logStep a lg l0))).
    { intros lg l0. unfold R, Build.logStep.
      pose proof (dump_other a b (logDump lg) l0 Hab) as Hd.
      fold (dump a (logDump lg) l0).
      set (l1 := dump a (logDump lg) l0) in *.
      pose proof (Log_other a b (l_Timestamp lg) (Trim (l_Data lg) crlf) l1 Hab)
        as H2.
      destruct (Log a _ _ l1) as [l2 [e|]]; simpl in *; congruence. }
    unfold Build.ProcessStatus.
    pose proof (forEach_rel R _ Hrefl Htrans Hv (Vertexes status) l) as H1.
    fold vertexStep in H1 |- *.
    destruct (forEach (vertexStep a) (Vertexes status) l) as [l1 [e|]|l1];
      simpl in *; try exact H1.
    pose proof (forEach_rel R _ Hrefl Htrans Hs (Statuses status) l1) as H2.
    destruct (forEach (statusStep a) (Statuses status) l1) as [l2 [e|]|l2];
      simpl in *; try (unfold R in *; congruence).
    pose proof (forEach_rel R _ Hrefl Htrans Hl (Logs status) l2) as H3.
    unfold R in *. congruence.
Qed.

(** ** The status map along a run *)

Lemma Log_statuses (service : string) (when : Time) (message : string)
      (l : flatfileLogger) :
  currVertexStatuses (Log service when message l).1 = currVertexStatuses l.
Proof.
  unfold Build.Log.
  pose proof (logFile_sameEars service l) as (_ & _ & Hm).
  destruct (logFile service l) as [l1 [e|]]; simpl in *; [exact Hm|].
  pose proof (writeFile_sameEars service
                (logLine when (Trim message crlf)) l1) as (_ & _ & Hm2).
  destruct (writeFile service _ l1) as [[l2 n] e]. simpl in *. congruence.
Qed.

(** A status event that returns without error has put its line in the map,
    or taken its id out of it. *)
Lemma logStatus_statuses (service : string) (status : @VertexStatus Time)
      (l l' : flatfileLogger) :
  logStatus service status l = Returned l' None ->
  currVertexStatuses l' = nextStatuses status (currVertexStatuses l).
Proof.
  unfold Build.logStatus.
  pose proof (logFile_sameEars service l) as (_ & _ & Hm).
  destruct (logFile service l) as [l1 [e|]]; simpl in *; [discriminate|].
  destruct (shortID (vs_ID status)) as [idText|] eqn:Eid; [|discriminate].
  set (text := statusTextOf idText status).
  set (l2 := updateStatuses service status
               (Build.statusLine timeString (vs_Timestamp status) text) l1).
  assert (H2 : currVertexStatuses l2 =
               nextStatuses status (currVertexStatuses l)).
  { unfold l2, updateStatuses, Build.nextStatuses, completes,
      Build.statusLineOf.
    rewrite Eid. cbn [default]. fold text.
    destruct (vs_Completed status) as [c|].
    - match goal with
      | |- context [writeFile ?sv ?s ?l0] =>
          pose proof (writeFile_sameEars sv s l0) as (_ & _ & C)
      end.
      rewrite C. simpl. now rewrite Hm.
    - simpl. now rewrite Hm. }
  unfold rewriteBlock.
  pose proof (writeFile_sameEars service
                (Join (renderStatuses (currVertexStatuses l2))) l2)
    as (_ & _ & Hm3).
  destruct (writeFile service _ l2) as [[l3 n] [e|]]; simpl in *;
    [discriminate|].
  pose proof (seekFile_sameEars service (- Z.of_nat n) l3) as (_ & _ & Hm4).
  destruct (seekFile service _ l3) as [l4 [e|]]; simpl in *; [discriminate|].
  intros H. injection H as <-. simpl. congruence.
Qed.

(** X9.  After a run of events that returns without error the status map
    holds, under every id, the line of the last status event of the id if
    that event did not complete, nothing if it completed, and what the map
    held before the run if the run has no status event of the id. *)
Theorem statuses_after_run (service : string) (evs : list (@event Time))
        (l l' : flatfileLogger) (id : string) :
  runEvents service evs l = Returned l' None ->
  currVertexStatuses l' !! id =
  match Build.lastStatus id evs with
  | Some st => if completes st then None else Some (statusLineOf st)
  | None => currVertexStatuses l !! id
  end.
Proof.
  revert l. induction evs as [|ev evs IH]; intros l Hrun.
  - injection Hrun as <-. reflexivity.
  - unfold Build.runEvents in *. cbn [forEach] in Hrun.
    destruct (step service ev l) as [l1 [e|]|l1] eqn:Hstep;
      try discriminate.
    rewrite (IH l1 Hrun). cbn [Build.lastStatus].
    destruct (Build.lastStatus id evs) as [st|]; [reflexivity|].
    destruct ev as [when message|st]; cbn [Build.step] in Hstep.
    + pose proof (Log_statuses service when message l) as Hm.
      destruct (Log service when message l) as [l1' e].
      injection Hstep as -> _. simpl in Hm. now rewrite Hm.
    + rewrite (logStatus_statuses _ _ _ _ Hstep). unfold Build.nextStatuses.
      destruct (String.eqb_spec (vs_ID st) id) as [<-|Hne].
      * destruct (completes st);
          [apply lookup_delete_eq|apply lookup_insert_eq].
      * destruct (completes st);
          [now apply lookup_delete_ne|now apply lookup_insert_ne].
Qed.

(** ** A whole call of [ProcessStatus] *)

Abbreviation vertexText := (Build.vertexText timeString wallClock).
Abbreviation vertexesText := (Build.vertexesText timeString wallClock).
Abbreviation statusesText := (Build.statusesText timeString wallClock).
Abbreviation logsText := (Build.logsText timeString wallClock).

Lemma vertexStep_extends (service : string) (v : Vertex) (l : flatfileLogger) :
  fileReady service l ->
  exists l' : flatfileLogger,
    vertexStep service v l = Returned l' None
    /\ extends service (vertexText (verbose l) (ticks l) v)
         (vertexTicks (verbose l) v) l l'.
Proof.
  intros Hr.
  pose proof (dump_extends service (vertexDump v) l Hr) as Hd.
  unfold Build.vertexStep. fold (dump service (vertexDump v) l).
  set (l1 := dump service (vertexDump v) l) in *.
  assert (Ht1 : ticks l1 = ticks l + dumpTicks (verbose l))
    by (destruct Hd as (_ & _ & _ & _ & ->); reflexivity).
  unfold Build.vertexText, vertexTicks, internal, hasError, Build.dumpText.
  fold (dumpTicks (verbose l)) in Hd.
  rewrite Index_zero.
  destruct (HasPrefix (v_Name v) "[internal]"); cbn [negb].
  - exists l1. split; [reflexivity|]. now rewrite app_empty_r, Nat.add_0_r.
  - assert (Hname : forall (l2 : flatfileLogger) (a : string) (n : nat),
               extends service a n l l2 ->
               exists l' : flatfileLogger,
                 orReturn "Could not write to %s's logs: %s" service
                   (LogNow service
                      (if v_Cached v then "cached: " +:+ v_Name v
                       else v_Name v) l2)
                   (fun l3 => Returned l3 None) = Returned l' None
                 /\ extends service
                      (a +:+ logLine (wallClock (ticks l + n))
                               (Trim ((if v_Cached v then "cached: "
                                       else EmptyString) +:+ v_Name v) crlf))
                      (n + 1) l l').
    { intros l2 a n H2.
      destruct (LogNow_extends service
                  (if v_Cached v then "cached: " +:+ v_Name v else v_Name v)
                  l2 (proj1 H2)) as (l' & Hrun & H3).
      exists l'. rewrite Hrun. split; [reflexivity|].
      pose proof (extends_trans _ _ _ _ _ _ _ _ H2 H3) as H.
      destruct H2 as (_ & _ & _ & _ & Ht2). rewrite Ht2 in H.
      now destruct (v_Cached v). }
    destruct (String.eqb (v_Error v) EmptyString) eqn:E; cbn [negb].
    + destruct (Hname l1 _ _ Hd) as (l' & Hrun & H).
      exists l'. split; [exact Hrun|].
      now rewrite app_nil_l, Nat.add_0_r, Nat.add_0_l.
    + destruct (LogNow_extends service
                  (v_Error v +:+ ": LAYERID=" +:+ v_Digest v) l1 (proj1 Hd))
        as (l2 & Hrun & H2).
      rewrite Hrun. cbn [orReturn]. rewrite Ht1 in H2.
      destruct (Hname l2 _ _ (extends_trans _ _ _ _ _ _ _ _ Hd H2))
        as (l' & Hrun' & H).
      exists l'. split; [exact Hrun'|].
      rewrite !app_assoc_s in H. rewrite Nat.add_assoc in H.
      now rewrite <- !Nat.add_assoc in *.
Qed.

Lemma statusStep_extends (service : string) (st : @VertexStatus Time)
      (l : flatfileLogger) :
  fileReady service l ->
  (HasPrefix (vs_ID st) "sha256:" = true -> 19 <= String.length (vs_ID st)) ->
  exists l' : flatfileLogger,
    statusStep service st l = Returned l' None
    /\ extends service
         (Build.dumpText timeString wallClock (verbose l) (ticks l)
            (statusDump st)
            +:+ (if completes st then statusLineOf st +:+ nl else EmptyString))
         (dumpTicks (verbose l)) l l'.
Proof.
  intros Hr Hid.
  pose proof (dump_extends service (statusDump st) l Hr) as Hd.
  unfold Build.statusStep. fold (dump service (statusDump st) l).
  set (l1 := dump service (statusDump st) l) in *.
  destruct (step_extends service (EvStatus st) l1 (proj1 Hd) Hid)
    as (l' & Hrun & H & _).
  cbn [Build.step] in Hrun. rewrite Hrun.
  exists l'. split; [reflexivity|].
  pose proof (extends_trans _ _ _ _ _ _ _ _ Hd H) as H'.
  rewrite Nat.add_0_r in H'. cbn [Build.permanentLine] in H'.
  unfold Build.dumpText, dumpTicks.
  now destruct (completes st).
Qed.

Lemma logStep_extends (service : string) (lg : @VertexLog Time)
      (l : flatfileLogger) :
  fileReady service l ->
  exists l' : flatfileLogger,
    logStep service lg l = Returned l' None
    /\ extends service
         (Build.dumpText timeString wallClock (verbose l) (ticks l)
            (logDump lg)
            +:+ logLine (l_Timestamp lg) (Trim (l_Data lg) crlf))
         (dumpTicks (verbose l)) l l'.
Proof.
  intros Hr.
  pose proof (dump_extends service (logDump lg) l Hr) as Hd.
  unfold Build.logStep. fold (dump service (logDump lg) l).
  set (l1 := dump service (logDump lg) l) in *.
  destruct (Log_extends service (l_Timestamp lg) (Trim (l_Data lg) crlf) l1
              (proj1 Hd)) as (l' & Hrun & H2 & _).
  exists l'. rewrite Hrun. split; [reflexivity|].
  rewrite Trim_idempotent in H2.
  pose proof (extends_trans _ _ _ _ _ _ _ _ Hd H2) as H'.
  now rewrite Nat.add_0_r in H'.
Qed.

Lemma vertexes_extend (service : string) (vs : list Vertex)
      (l : flatfileLogger) :
  fileReady service l ->
  exists l' : flatfileLogger,
    forEach (vertexStep service) vs l = Returned l' None
    /\ extends service (vertexesText (verbose l) (ticks l) vs)
         (vertexesTicks (verbose l) vs) l l'.
Proof.
  revert l. induction vs as [|v vs IH]; intros l Hr.
  - exists l. split; [reflexivity|]. now apply extends_refl.
  - destruct (vertexStep_extends service v l Hr) as (l1 & Hstep & H1).
    destruct (IH l1 (proj1 H1)) as (l' & Hrest & H2).
    cbn [forEach]. rewrite Hstep. exists l'. split; [exact Hrest|].
    pose proof H1 as (_ & _ & Hv & _ & Ht). rewrite Hv, Ht in H2.
    exact (extends_trans _ _ _ _ _ _ _ _ H1 H2).
Qed.

Lemma statuses_extend (service : string) (sts : list (@VertexStatus Time))
      (l : flatfileLogger) :
  fileReady service l ->
  Forall (fun st => HasPrefix (vs_ID st) "sha256:" = true ->
                    19 <= String.length (vs_ID st)) sts ->
  exists l' : flatfileLogger,
    forEach (statusStep service) sts l = Returned l' None
    /\ extends service (statusesText (verbose l) (ticks l) sts)
         (dumpTicks (verbose l) * length sts) l l'.
Proof.
  intros Hr Hids. revert l Hr.
  induction Hids as [|st sts Hid Hids IH]; intros l Hr.
  - exists l. split; [reflexivity|]. rewrite Nat.mul_0_r.
    now apply extends_refl.
  - destruct (statusStep_extends service st l Hr Hid) as (l1 & Hstep & H1).
    destruct (IH l1 (proj1 H1)) as (l' & Hrest & H2).
    cbn [forEach]. rewrite Hstep. exists l'. split; [exact Hrest|].
    pose proof H1 as (_ & _ & Hv & _ & Ht). rewrite Hv, Ht in H2.
    pose proof (extends_trans _ _ _ _ _ _ _ _ H1 H2) as H.
    cbn [Build.statusesText length].
    rewrite Nat.mul_succ_r, (Nat.add_comm (dumpTicks _ * _)).
    rewrite app_assoc_s in H. exact H.
Qed.

Lemma logs_extend (service : string) (lgs : list (@VertexLog Time))
      (l : flatfileLogger) :
  fileReady service l ->
  exists l' : flatfileLogger,
    forEach (logStep service) lgs l = Returned l' None
    /\ extends service (logsText (verbose l) (ticks l) lgs)
         (dumpTicks (verbose l) * length lgs) l l'.
Proof.
  revert l. induction lgs as [|lg lgs IH]; intros l Hr.
  - exists l. split; [reflexivity|]. rewrite Nat.mul_0_r.
    now apply extends_refl.
  - destruct (logStep_extends service lg l Hr) as (l1 & Hstep & H1).
    destruct (IH l1 (proj1 H1)) as (l' & Hrest & H2).
    cbn [forEach]. rewrite Hstep. exists l'. split; [exact Hrest|].
    pose proof H1 as (_ & _ & Hv & _ & Ht). rewrite Hv, Ht in H2.
    pose proof (extends_trans _ _ _ _ _ _ _ _ H1 H2) as H.
    cbn [Build.logsText length].
    rewrite Nat.mul_succ_r, (Nat.add_comm (dumpTicks _ * _)).
    rewrite app_assoc_s in H. exact H.
Qed.

(** X10.  A call of [ProcessStatus] on a file that can be written, every
    status id of which has a short id, returns without error, and has
    appended to the permanent region of the file first the lines of all its
    vertexes, then the lines of all its statuses (the line of every
    completion), then the lines of all its raw logs, whatever the times the
    events carry; the file can still be written, and the clock has been read
    once for every vertex line and once for every dump. *)
Theorem ProcessStatus_appends (service : string) (status : @SolveStatus Time)
        (l : flatfileLogger) :
  fileReady service l ->
  Forall (fun st => HasPrefix (vs_ID st) "sha256:" = true ->
                    19 <= String.length (vs_ID st)) (Statuses status) ->
  let vb := verbose l in
  let t1 := ticks l + vertexesTicks vb (Vertexes status) in
  let t2 := t1 + dumpTicks vb * length (Statuses status) in
  exists l' : flatfileLogger,
    ProcessStatus service status l = Returned l' None
    /\ fileReady service l'
    /\ permanent (fileOf service l') =
         permanent (fileOf service l)
           +:+ (vertexesText vb (ticks l) (Vertexes status)
                  +:+ statusesText vb t1 (Statuses status)
                  +:+ logsText vb t2 (Logs status))
    /\ ticks l' = t2 + dumpTicks vb * length (Logs status).
Proof.
  intros Hr Hids vb t1 t2.
  destruct (vertexes_extend service (Vertexes status) l Hr) as (l1 & Hv & H1).
  destruct (statuses_extend service (Statuses status) l1 (proj1 H1) Hids)
    as (l2 & Hs & H2).
  destruct (logs_extend service (Logs status) l2 (proj1 H2)) as (l3 & Hl & H3).
  exists l3. unfold Build.ProcessStatus. rewrite Hv, Hs.
  split; [exact Hl|].
  pose proof H1 as (_ & _ & Hvb1 & _ & Ht1).
  pose proof H2 as (_ & _ & Hvb2 & _ & Ht2).
  rewrite Hvb2, Ht2, Hvb1, Ht1 in H3. rewrite Hvb1, Ht1 in H2.
  destruct (extends_trans _ _ _ _ _ _ _ _
              (extends_trans _ _ _ _ _ _ _ _ H1 H2) H3)
    as (Hr3 & Hp3 & _ & _ & Ht3).
  split; [exact Hr3|]. split.
  - rewrite Hp3. now rewrite !app_assoc_s.
  - rewrite Ht3. unfold t2, t1, vb. lia.
Qed.

(** X17.  A status id that starts with ["sha256:"] and is shorter than 19
    bytes makes [ProcessStatus] panic in the middle of its work: on a file
    that can be written, the lines of all the vertexes and of the statuses
    before the offending one are in the permanent region by then, with the
    dump of the offending status when the verbose flag is set; the statuses
    after it and the raw logs are not written. *)
Theorem ProcessStatus_panics_midway (service : string)
        (status : @SolveStatus Time) (l : flatfileLogger)
        (pre post : list (@VertexStatus Time)) (st : @VertexStatus Time) :
  fileReady service l ->
  Statuses status = (pre ++ st :: post)%list ->
  Forall (fun st => HasPrefix (vs_ID st) "sha256:" = true ->
                    19 <= String.length (vs_ID st)) pre ->
  HasPrefix (vs_ID st) "sha256:" = true ->
  String.length (vs_ID st) < 19 ->
  let vb := verbose l in
  let t1 := ticks l + vertexesTicks vb (Vertexes status) in
  let t2 := t1 + dumpTicks vb * length pre in
  exists l' : flatfileLogger,
    ProcessStatus service status l = Panicked l'
    /\ permanent (fileOf service l') =
         permanent (fileOf service l)
           +:+ (vertexesText vb (ticks l) (Vertexes status)
                  +:+ statusesText vb t1 pre
                  +:+ Build.dumpText timeString wallClock vb t2 (statusDump st)).
Proof.
  intros Hr Hsts Hpre Hpf Hlen vb t1 t2.
  destruct (vertexes_extend service (Vertexes status) l Hr) as (l1 & Hv & H1).
  destruct (statuses_extend service pre l1 (proj1 H1) Hpre) as (l2 & Hs & H2).
  pose proof (dump_extends service (statusDump st) l2 (proj1 H2)) as H3.
  pose proof H1 as (_ & _ & Hvb1 & _ & Ht1).
  pose proof H2 as (_ & _ & Hvb2 & _ & Ht2).
  rewrite Hvb2, Ht2, Hvb1, Ht1 in H3. rewrite Hvb1, Ht1 in H2.
  destruct (extends_trans _ _ _ _ _ _ _ _
              (extends_trans _ _ _ _ _ _ _ _ H1 H2) H3)
    as (Hr3 & Hp3 & _).
  unfold Build.ProcessStatus. rewrite Hv, Hsts, forEach_app, Hs.
  cbn [forEach]. unfold Build.statusStep.
  fold (dump service (statusDump st) l2).
  set (l3 := dump service (statusDump st) l2) in *.
  unfold Build.logStatus. rewrite (logFile_ready _ _ Hr3).
  rewrite (proj2 (shortID_None (vs_ID st)) (conj Hpf Hlen)).
  eexists. split; [reflexivity|].
  unfold setFiles. rewrite fileOf_insert, Hp3.
  now rewrite !app_assoc_s.
Qed.

(** ** A file that cannot be opened *)

Lemma Log_cannot_open (service : string) (when : Time) (message : string)
      (l : flatfileLogger) :
  openFiles l !! service = None -> canOpen service = false ->
  Log service when message l = (l, Some (OsError "open" service)).
Proof.
  intros Hf Hc. unfold Build.Log, Build.logFile. now rewrite Hf, Hc.
Qed.

Lemma onlyClock_refl (l : flatfileLogger) : onlyClock l l.
Proof. unfold onlyClock. auto. Qed.

Lemma onlyClock_trans (l l1 l2 : flatfileLogger) :
  onlyClock l l1 -> onlyClock l1 l2 -> onlyClock l l2.
Proof.
  unfold onlyClock. intros (-> & -> & -> & -> & ->) (-> & -> & -> & -> & ->).
  auto.
Qed.

Lemma onlyClock_Now (l : flatfileLogger) : onlyClock l (Now wallClock l).2.
Proof. unfold onlyClock, Now. simpl. auto. Qed.

Lemma onlyClock_closed (service : string) (l l' : flatfileLogger) :
  onlyClock l l' -> openFiles l !! service = None ->
  openFiles l' !! service = None.
Proof. intros (_ & -> & _) H. exact H. Qed.

Lemma LogNow_cannot_open (service message : string) (l : flatfileLogger) :
  openFiles l !! service = None -> canOpen service = false ->
  exists l' : flatfileLogger,
    LogNow service message l = (l', Some (OsError "open" service))
    /\ onlyClock l l'.
Proof.
  intros Hf Hc. unfold Build.LogNow.
  pose proof (onlyClock_Now l) as H.
  destruct (Now wallClock l) as [when l0]. simpl in H.
  exists l0. split; [|exact H].
  apply Log_cannot_open; [|exact Hc]. exact (onlyClock_closed _ _ _ H Hf).
Qed.

Lemma dump_cannot_open (service message : string) (l : flatfileLogger) :
  openFiles l !! service = None -> canOpen service = false ->
  onlyClock l (dump service message l).
Proof.
  intros Hf Hc. unfold Build.dump.
  destruct (verbose l); [|apply onlyClock_refl].
  destruct (LogNow_cannot_open service message l Hf Hc) as (l' & -> & H).
  exact H.
Qed.

Lemma vertexes_cannot_open (service : string) (vs : list Vertex)
      (l : flatfileLogger) :
  openFiles l !! service = None -> canOpen service = false ->
  exists l' : flatfileLogger,
    forEach (vertexStep service) vs l =
      Returned l' (refusal service (@mkSolveStatus Time vs [] []))
    /\ onlyClock l l'.
Proof.
  intros Hf Hc. revert l Hf.
  induction vs as [|v vs IH]; intros l Hf.
  - exists l. split; [reflexivity|apply onlyClock_refl].
  - pose proof (dump_cannot_open service (vertexDump v) l Hf Hc) as Hd.
    unfold refusal in *. cbn [forEach Vertexes Statuses Logs List.find] in *.
    unfold Build.vertexStep at 1. fold (dump service (vertexDump v) l).
    set (l1 := dump service (vertexDump v) l) in *.
    pose proof (onlyClock_closed _ _ _ Hd Hf) as Hf1.
    unfold internal at 1. rewrite Index_zero.
    destruct (HasPrefix (v_Name v) "[internal]"); cbn [negb].
    + destruct (IH l1 Hf1) as (l' & Hrun & H).
      exists l'. split; [exact Hrun|exact (onlyClock_trans _ _ _ Hd H)].
    + unfold hasError.
      destruct (negb (String.eqb (v_Error v) EmptyString)).
      * destruct (LogNow_cannot_open service
                    (v_Error v +:+ ": LAYERID=" +:+ v_Digest v) l1 Hf1 Hc)
          as (l' & -> & H).
        exists l'. split; [reflexivity|exact (onlyClock_trans _ _ _ Hd H)].
      * destruct (LogNow_cannot_open service
                    (if v_Cached v then "cached: " +:+ v_Name v
                     else v_Name v) l1 Hf1 Hc)
          as (l' & -> & H).
        exists l'. split; [reflexivity|exact (onlyClock_trans _ _ _ Hd H)].
Qed.

(** X11.  When the file of the service is not open and cannot be opened,
    [ProcessStatus] never panics, whatever the ids of its statuses; it
    calls no listener and leaves the files and the status map as they
    were; the dumps are lost without a word; and it returns the error of
    the first event that has to write: a vertex that is not internal (its
    failure line if it has an error, else its name line), else the first
    status, else the first raw log; [nil] only when every vertex is
    internal and there is no status and no raw log. *)
Theorem ProcessStatus_cannot_open (service : string)
        (status : @SolveStatus Time) (l : flatfileLogger) :
  openFiles l !! service = None -> canOpen service = false ->
  exists l' : flatfileLogger,
    ProcessStatus service status l = Returned l' (refusal service status)
    /\ openFiles l' = openFiles l
    /\ currVertexStatuses l' = currVertexStatuses l
    /\ heard l' = heard l.
Proof.
  intros Hf Hc.
  destruct (vertexes_cannot_open service (Vertexes status) l Hf Hc)
    as (l1 & Hv & H1).
  pose proof (onlyClock_closed _ _ _ H1 Hf) as Hf1.
  assert (Hout : forall l' : flatfileLogger, onlyClock l l' ->
            openFiles l' = openFiles l
            /\ currVertexStatuses l' = currVertexStatuses l
            /\ heard l' = heard l).
  { intros l' (-> & -> & _ & _ & ->). auto. }
  unfold Build.ProcessStatus. rewrite Hv. unfold refusal in *.
  cbn [Vertexes Statuses Logs] in *.
  destruct (List.find (fun v => negb (internal v)) (Vertexes status)) as [v|].
  { exists l1. split; [reflexivity|now apply Hout]. }
  destruct (Statuses status) as [|st sts]; cbn [forEach].
  - destruct (Logs status) as [|lg lgs]; cbn [forEach].
    + exists l1. split; [reflexivity|now apply Hout].
    + pose proof (dump_cannot_open service (logDump lg) l1 Hf1 Hc) as Hd.
      unfold Build.logStep. fold (dump service (logDump lg) l1).
      set (l2 := dump service (logDump lg) l1) in *.
      rewrite Log_cannot_open
        by (try exact Hc; exact (onlyClock_closed _ _ _ Hd Hf1)).
      exists l2. split; [reflexivity|].
      apply Hout. exact (onlyClock_trans _ _ _ H1 Hd).
  - pose proof (dump_cannot_open service (statusDump st) l1 Hf1 Hc) as Hd.
    unfold Build.statusStep. fold (dump service (statusDump st) l1).
    set (l2 := dump service (statusDump st) l1) in *.
    unfold Build.logStatus, Build.logFile.
    rewrite (onlyClock_closed _ _ _ Hd Hf1), Hc.
    exists l2. split; [reflexivity|].
    apply Hout. exact (onlyClock_trans _ _ _ H1 Hd).
Qed.

End LoggerFacts.

(** ** The cluster check *)

Section ClusterFacts.
Import Localdev.
Variable parseTime : string -> option Z.

Abbreviation checkCluster := (Localdev.checkCluster parseTime).
Abbreviation checkClusterReady := (Localdev.checkClusterReady parseTime).
Abbreviation recentLoop := (Localdev.recentLoop parseTime).

(** Marking the running nodes gives every key of the map that names a
    listed node a node, and leaves the rest of the map as it is. *)
Lemma markRunning_lookup (nodes : list string)
      (m : gmap string (option string)) (k : string) :
  markRunning nodes m !! k =
  match m !! k with
  | None => None
  | Some v => if bool_decide (k ∈ nodes) then Some (Some k) else Some v
  end.
Proof.
  revert m. induction nodes as [|n nodes IH]; intros m.
  - simpl. now destruct (m !! k).
  - unfold markRunning in *. cbn [fold_left]. rewrite IH. clear IH.
    destruct (decide (k = n)) as [->|Hne].
    + rewrite (bool_decide_eq_true_2 (n ∈ n :: nodes)) by set_solver.
      destruct (m !! n) as [v|] eqn:E.
      * rewrite lookup_insert_eq. now destruct (bool_decide (n ∈ nodes)).
      * now rewrite E.
    + assert (Hin : bool_decide (k ∈ n :: nodes) = bool_decide (k ∈ nodes)).
      { apply bool_decide_ext. rewrite elem_of_cons.
        split; [intros [H|H]; [contradiction|exact H]|auto]. }
      rewrite Hin.
      destruct (m !! n) as [v|]; [|reflexivity].
      now rewrite lookup_insert_ne by congruence.
Qed.

Lemma markRunning_dom (nodes : list string) (m : gmap string (option string)) :
  dom (markRunning nodes m) = dom m.
Proof.
  apply set_eq. intros k. rewrite !elem_of_dom, markRunning_lookup.
  destruct (m !! k) as [v|]; [|reflexivity].
  destruct (bool_decide (k ∈ nodes)); split; eauto.
Qed.

Lemma markRunning_size (nodes : list string) :
  size (markRunning nodes requiredContainers) = 4.
Proof.
  rewrite <- size_dom, markRunning_dom. vm_compute. reflexivity.
Qed.

(** A required node is [nil] after the marking exactly when a required
    name is not listed. *)
Lemma markRunning_missing (nodes : list string) :
  existsb (fun node : string * option string =>
             match node.2 with None => true | Some _ => false end)
          (map_to_list (markRunning nodes requiredContainers))
  = negb (allRequiredPresent nodes).
Proof.
  apply eq_true_iff_eq. rewrite existsb_exists, negb_true_iff.
  unfold allRequiredPresent. rewrite <- not_true_iff_false, forallb_forall.
  split.
  - intros ([k v] & Hin & Hv) Hall. simpl in Hv.
    destruct v as [v|]; [discriminate|].
    apply list_elem_of_In, elem_of_map_to_list in Hin.
    rewrite markRunning_lookup in Hin.
    destruct (requiredContainers !! k) as [v|] eqn:E; [|discriminate].
    assert (Hk : In k requiredNames).
    { apply list_elem_of_In.
      assert (Hd : k ∈ dom requiredContainers) by (apply elem_of_dom; eauto).
      revert Hd. unfold requiredContainers, requiredNames.
      rewrite !dom_insert_L, dom_empty_L. set_solver. }
    rewrite (Hall k Hk) in Hin. discriminate.
  - intros Hnot.
    assert (Hex : exists k, In k requiredNames /\ bool_decide (k ∈ nodes) = false).
    { destruct (forallb (fun name => bool_decide (name ∈ nodes)) requiredNames)
        eqn:E.
      - exfalso. apply Hnot. now apply forallb_forall.
      - clear Hnot. unfold requiredNames in *. cbn [forallb] in E.
        repeat match type of E with
               | (bool_decide (?k ∈ nodes) && _)%bool = false =>
                   destruct (bool_decide (k ∈ nodes)) eqn:?;
                   [cbn [andb] in E
                   |exists k; split; [simpl; tauto|assumption]]
               end.
        discriminate. }
    destruct Hex as (k & Hk & Hno).
    exists (k, None). split; [|reflexivity].
    apply list_elem_of_In, elem_of_map_to_list.
    rewrite markRunning_lookup, Hno.
    unfold requiredNames in Hk. simpl in Hk.
    destruct Hk as [<-|[<-|[<-|[<-|[]]]]]; vm_compute; reflexivity.
Qed.

(** The loop over the times, when every time parses *)
Lemma recentLoop_parsed (clock : nat -> Z) (nodeTimes : list string)
      (times : list Z) (i : nat) (recent : bool) :
  Forall2 (fun s t => parseTime (TrimSpace s) = Some t) nodeTimes times ->
  recentLoop clock i nodeTimes recent
  = inr (recent || anyRecent clock i times).
Proof.
  intros H. revert i recent.
  induction H as [|s t nodeTimes times Hs _ IH]; intros i recent.
  - simpl. now rewrite orb_false_r.
  - cbn [Localdev.recentLoop anyRecent]. rewrite Hs, IH.
    destruct (clock i <? t + Minute)%Z; simpl.
    + now rewrite orb_true_r.
    + reflexivity.
Qed.

Lemma anyRecent_spec (clock : nat -> Z) (times : list Z) (i : nat) :
  anyRecent clock i times = true <->
  exists (j : nat) (t : Z),
    times !! j = Some t /\ (clock (i + j)%nat < t + Minute)%Z.
Proof.
  revert i. induction times as [|t times IH]; intros i; simpl.
  - split; [discriminate|]. intros (j & t & H & _). discriminate.
  - rewrite orb_true_iff, IH, Z.ltb_lt. split.
    + intros [H|(j & t' & Hj & H)].
      * exists 0, t. rewrite Nat.add_0_r. auto.
      * exists (S j), t'. rewrite Nat.add_succ_r. auto.
    + intros ([|j] & t' & Hj & H).
      * injection Hj as ->. rewrite Nat.add_0_r in H. auto.
      * right. exists j, t'. rewrite Nat.add_succ_r in H. auto.
Qed.


(** ** The topology that [checkCluster] accepts *)

Lemma requiredNames_NoDup : NoDup requiredNames.
Proof.
  unfold requiredNames.
  repeat (apply NoDup_cons; split;
          [rewrite ?elem_of_cons, elem_of_nil; intros H;
           repeat (destruct H as [H|H]; [discriminate H|]); exact H|]).
  apply NoDup_nil. exact I.
Qed.

(** Four listed names with every required name among them are the required
    names, in some order. *)
Lemma required_Permutation (names : list string) :
  length names = 4 /\ allRequiredPresent names = true
  <-> names ≡ₚ requiredNames.
Proof.
  unfold allRequiredPresent. rewrite forallb_forall. split.
  - intros [Hlen Hall]. symmetry.
    apply submseteq_length_Permutation.
    + apply NoDup_submseteq; [apply requiredNames_NoDup|].
      intros x Hx. apply list_elem_of_In, Hall in Hx.
      now apply bool_decide_eq_true in Hx.
    + rewrite Hlen. reflexivity.
  - intros Hp. split.
    + now rewrite Hp.
    + intros x Hx. apply bool_decide_eq_true. rewrite Hp.
      now apply list_elem_of_In.
Qed.

(** X12.  [checkCluster] goes on to [checkClusterReady] exactly when the
    listed names are the four required names, in any order.  For every
    other listing (no node, a missing, a foreign or a doubled name) it
    returns an error that the listing alone decides: [kubectl] is not run
    and the operator is not asked. *)
Theorem checkCluster_topology (w : World) (names : list string) :
  listing w = inr names ->
  (names ≡ₚ requiredNames -> checkCluster w = checkClusterReady w)
  /\ (~ names ≡ₚ requiredNames ->
      exists msg : string,
        forall w' : World, listing w' = inr names -> checkCluster w' = fail msg).
Proof.
  intros Hl. split.
  - intros Hp. apply required_Permutation in Hp. destruct Hp as [Hlen Hall].
    unfold Localdev.checkCluster.
    rewrite Hl, markRunning_size, markRunning_missing, Hlen, Hall.
    reflexivity.
  - intros Hnp.
    exists (if (length names =? 0)%nat
            then "no nodes were running, cluster has to be provisioned once per docker engine restart"
            else if negb (length names =? 4)%nat
            then "some nodes have been removed/crashed. only "
                   +:+ fmt_d (Z.of_nat (length names)) +:+ "/"
                   +:+ fmt_d (Z.of_nat 4) +:+ " were running"
            else "some nodes were not running while others were, try deleting your cluster containers with docker rm").
    intros w' Hl'. unfold Localdev.checkCluster.
    rewrite Hl', markRunning_size, markRunning_missing.
    destruct (length names =? 0)%nat; [reflexivity|].
    destruct (length names =? 4)%nat eqn:E4; cbn [negb]; [|reflexivity].
    destruct (allRequiredPresent names) eqn:Ea; cbn [negb]; [|reflexivity].
    exfalso. apply Hnp, required_Permutation.
    split; [now apply Nat.eqb_eq|exact Ea].
Qed.

(** ** The question to the operator *)

(** X13.  The question is printed once for every reply that is read, and
    the first reply that is understood decides: up to the end of the input
    nothing but replies that are not understood is healthy, after as many
    questions as there were replies and one more; a first understood reply
    after [junk] ends the loop at the question after them, with the error
    of a chosen redeploy for ["y"] and ["Y"] and without error for ["n"],
    ["N"] and the empty reply, and what follows it is not read. *)
Theorem askRedeploy_first_understood (junk : list string) (n : nat) :
  Forall (fun resp => understood resp = false) junk ->
  askRedeploy junk n = mkResult (n + length junk + 1) None
  /\ forall (resp : string) (rest : list string),
       understood resp = true ->
       askRedeploy (junk ++ resp :: rest) n =
       mkResult (n + length junk + 1)
         (if agrees resp
          then Some "some nodes weren't ready, and you chose to redeploy"
          else None).
Proof.
  intros Hjunk. revert n.
  induction Hjunk as [|r junk Hr _ IH]; intros n.
  - cbn [app length askRedeploy]. rewrite Nat.add_0_r, Nat.add_1_r.
    split; [reflexivity|]. intros resp rest Hu.
    unfold understood, agrees, declines in *.
    destruct (String.eqb resp "y" || String.eqb resp "Y"); [reflexivity|].
    cbn [orb] in Hu. now rewrite Hu.
  - cbn [app length askRedeploy].
    unfold understood, agrees, declines in Hr.
    apply orb_false_iff in Hr. destruct Hr as [-> ->].
    destruct (IH (S n)) as [IH1 IH2].
    replace (n + S (length junk) + 1) with (S n + length junk + 1) by lia.
    split; [exact IH1|exact IH2].
Qed.

(** ** The answers of [kubectl] that [checkClusterReady] refuses *)

Lemma length_Split (s : string) (c : ascii) :
  length (Split s c) = S (occurrences c s).
Proof.
  induction s as [|a s IH]; [reflexivity|].
  cbn [Split occurrences]. destruct (Ascii.eqb a c); cbn [length].
  - now rewrite IH.
  - destruct (Split s c) as [|f fs]; [discriminate IH|exact IH].
Qed.

Lemma Split_none (s : string) (c : ascii) :
  occurrences c s = 0 -> Split s c = [s].
Proof.
  induction s as [|a s IH]; [reflexivity|].
  cbn [Split occurrences]. destruct (Ascii.eqb a c); [discriminate|].
  intros H. now rewrite IH.
Qed.

Lemma Split_at (a b : string) (c : ascii) :
  occurrences c a = 0 -> Split (a +:+ String c b) c = a :: Split b c.
Proof.
  induction a as [|x a IH].
  - intros _. rewrite app_nil_l. cbn [Split]. now rewrite Ascii.eqb_refl.
  - rewrite app_cons. cbn [Split occurrences].
    destruct (Ascii.eqb x c); [discriminate|].
    intros H. now rewrite IH.
Qed.

(** The loop over the times stops at the first time that does not parse. *)
Lemma recentLoop_unparsed (clock : nat -> Z) (pre post : list string)
      (s : string) (i : nat) (recent : bool) :
  Forall (fun x => is_Some (parseTime (TrimSpace x))) pre ->
  parseTime (TrimSpace s) = None ->
  recentLoop clock i (pre ++ s :: post) recent =
  inl ("got invalid kubernetes output while checking how long cluster has been running: "
         +:+ TrimSpace s).
Proof.
  intros Hpre Hs. revert i recent.
  induction Hpre as [|x pre [t Hx] _ IH]; intros i recent.
  - cbn [app Localdev.recentLoop]. now rewrite Hs.
  - cbn [app Localdev.recentLoop]. rewrite Hx. apply IH.
Qed.



End ClusterFacts.

(** ** The properties on the sample runs *)

(** * The completion of the [env] command *)

Section CompletionFacts.
Import Commands.

Lemma possibleEnvs_Permutation (requestedEnv : string)
      (keys keys' : list string) :
  keys ≡ₚ keys' ->
  possibleEnvs requestedEnv keys ≡ₚ possibleEnvs requestedEnv keys'.
Proof.
  unfold possibleEnvs.
  induction 1 as [|x k k' _ IH|x y k|k k' k'' _ IH1 _ IH2]; cbn [List.filter].
  - reflexivity.
  - destruct (HasPrefix x requestedEnv); [now constructor|exact IH].
  - destruct (HasPrefix x requestedEnv), (HasPrefix y requestedEnv);
      try reflexivity.
    apply perm_swap.
  - now transitivity (List.filter (fun key => HasPrefix key requestedEnv) k').
Qed.

(** The requested name is the first argument, the empty name without one. *)
Lemma requestedEnv_First (arguments : list string) :
  length arguments <= 1 ->
  (if (length arguments =? 1)%nat then First arguments else EmptyString)
  = First arguments.
Proof.
  destruct arguments as [|a [|b rest]]; cbn [length]; try reflexivity. lia.
Qed.

(** X15.  The output of the completion does not depend on the order in
    which the environments of the configuration are visited: two
    invocations with the same arguments and the same configuration path,
    whose configurations hold the same keys in any two orders, write the
    same texts. *)
Theorem autocomplete_order_independent (c c' : Invocation) :
  args c' = args c -> sanicConfig c' = sanicConfig c ->
  (forall path : string,
      option_Forall2 Permutation (environments c path) (environments c' path)) ->
  environmentCommandAutocomplete c' = environmentCommandAutocomplete c.
Proof.
  intros Ha Hs He. unfold environmentCommandAutocomplete.
  rewrite Ha, Hs. destruct (1 <? length (args c))%nat; [reflexivity|].
  destruct (sanicConfig c) as [path|]; [|reflexivity].
  destruct (He path) as [keys keys' Hp|]; [|reflexivity].
  set (requestedEnv :=
         if (length (args c) =? 1)%nat then First (args c) else EmptyString).
  pose proof (possibleEnvs_Permutation requestedEnv _ _ Hp) as Hq.
  rewrite <- (Permutation_length Hq).
  destruct (possibleEnvs requestedEnv keys) as [|x [|y rest]] eqn:E;
    try reflexivity.
  apply Permutation_singleton_l in Hq. now rewrite Hq.
Qed.

(** X16.  With two or more candidates, or none, the completion writes the
    positions of the candidates, one a line, and none of their names: two
    invocations with as many candidates write the same texts, whatever the
    environments are called. *)
Theorem autocomplete_writes_positions (c c' : Invocation)
        (path path' : string) (keys keys' : list string) :
  length (args c) <= 1 -> length (args c') <= 1 ->
  sanicConfig c = Some path -> sanicConfig c' = Some path' ->
  environments c path = Some keys -> environments c' path' = Some keys' ->
  let n := length (possibleEnvs (First (args c)) keys) in
  length (possibleEnvs (First (args c')) keys') = n -> n <> 1 ->
  environmentCommandAutocomplete c = map println_int (seq 0 n)
  /\ environmentCommandAutocomplete c' = environmentCommandAutocomplete c.
Proof.
  intros Ha Ha' Hs Hs' He He' n Hn Hne.
  assert (H : forall (d : Invocation) (p : string) (k : list string),
             length (args d) <= 1 -> sanicConfig d = Some p ->
             environments d p = Some k ->
             length (possibleEnvs (First (args d)) k) = n ->
             environmentCommandAutocomplete d = map println_int (seq 0 n)).
  { intros d p k Hd Hp Hk Hlen. unfold environmentCommandAutocomplete.
    destruct (Nat.ltb_spec 1 (length (args d))) as [Hgt|_]; [lia|].
    rewrite Hp, Hk, (requestedEnv_First _ Hd), Hlen.
    destruct (Nat.eqb_spec n 1) as [E|_]; [contradiction|reflexivity]. }
  rewrite (H c path keys Ha Hs He eq_refl), (H c' path' keys' Ha' Hs' He' Hn).
  split; reflexivity.
Qed.

End CompletionFacts.

Section Samples.
Import Sample.




(** C3, as stated, fails twice.  On a closed file the write of [Log] fails
    and the file is as it was, and yet the listener is called.  The
    completion of layer ["b"] commits a permanent line and renders the
    block again, and yet the listener is called once, with the line of
    layer ["a"]. *)
Lemma listener_called_on_failed_write_and_once_on_completion :
  (Build.Log timeString canOpen "svc" "T" "second" closedLogger).2
    = Some (OsError "write" "svc")
  /\ data (fileOf "svc"
             (Build.Log timeString canOpen "svc" "T" "second" closedLogger).1)
     = data (fileOf "svc" closedLogger)
  /\ heard (Build.Log timeString canOpen "svc" "T" "second" closedLogger).1
     = (heard closedLogger ++ [(7, "svc", "second" +:+ nl)])%list
  /\ permanent
       (fileOf "svc"
          (after [EvStatus (status "b" 100 100 true)] (after twoLayers listened)))
     = "[T] b 100.00B/100.00B" +:+ nl
  /\ heard (after [EvStatus (status "b" 100 100 true)]
                  (after twoLayers listened))
     = (heard (after twoLayers listened)
          ++ [(7, "svc", "a 100.00B/100.00B" +:+ nl +:+ nl)])%list.
Proof. repeat split; vm_compute; reflexivity. Qed.

(** The listener of [listened] on a line of the build. *)
Lemma listeners_called_witness :
  heard (Build.Log timeString canOpen "svc" "T" ("RUN make" +:+ nl) listened).1
  = [(7, "svc", "RUN make" +:+ nl)].
Proof.
  rewrite (proj1 (proj1 (listeners_called timeString canOpen "svc" listened)
                    "T" ("RUN make" +:+ nl))).
  - vm_compute. reflexivity.
  - vm_compute. reflexivity.
Defined.

(** A cached vertex with an error: the line of the error, then the line of
    the name. *)
Lemma vertexStep_lines_witness :
  exists l' : flatfileLogger,
    Build.vertexStep timeString wallClock canOpen "svc" failingVertex quiet
    = Returned l' None
    /\ permanent (fileOf "svc" l') =
         ("[now0] exit code 2: LAYERID=sha256:0123" +:+ nl)
           +:+ ("[now1] cached: [2/3] RUN make" +:+ nl).
Proof.
  destruct (vertexStep_lines timeString wallClock canOpen "svc" failingVertex
              quiet ltac:(reflexivity)) as (l' & Hrun & _ & Hp).
  exists l'. split; [exact Hrun|]. rewrite Hp. vm_compute. reflexivity.
Defined.

(** The log line [framedLog]: its line is ["[T] hello"]. *)
Lemma logStep_line_witness :
  exists l' : flatfileLogger,
    Build.logStep timeString wallClock canOpen "svc" framedLog quiet
    = Returned l' None
    /\ permanent (fileOf "svc" l') = "[T] hello" +:+ nl.
Proof.
  destruct (logStep_line timeString wallClock canOpen "svc" framedLog quiet
              ltac:(reflexivity)) as (l' & Hrun & Hp & _).
  exists l'. split; [exact Hrun|]. rewrite Hp. vm_compute. reflexivity.
Defined.

(** C6, as stated, fails: the data of [framedLog] without its trailing
    line feeds still starts with a line feed, and the message of the line
    that is committed does not. *)
Lemma leading_line_feed_removed :
  TrimRight (l_Data framedLog) nl = String LF "hello"
  /\ permanent
       (fileOf "svc"
          (match Build.logStep timeString wallClock canOpen "svc" framedLog
                   quiet with
           | Returned l' _ => l'
           | Panicked l' => l'
           end))
     = "[T] hello" +:+ nl
  /\ "[T] hello" +:+ nl
     <> Build.logLine timeString (l_Timestamp framedLog)
          (TrimRight (l_Data framedLog) nl).
Proof.
  repeat split; try (vm_compute; reflexivity).
  vm_compute. intros H. discriminate H.
Qed.

(** A status id with the prefix and three more bytes: [logStatus] panics. *)
Lemma logStatus_panics_iff_witness :
  exists l' : flatfileLogger,
    Build.logStatus timeString canOpen "svc" (status "sha256:abc" 50 100 false)
      quiet = Panicked l'.
Proof.
  apply logStatus_panics_iff. vm_compute. repeat split; lia.
Defined.

(** The sample cluster: the operator is asked once and, with no reply, the
    cluster is taken as healthy. *)
Lemma mixedTimes_parsed :
  Forall2 (fun s t => parseTime (TrimSpace s) = Some t)
          (Split mixedTimes Localdev.SPACE)
          [990000000000; 700000000000; 700000000000; 700000000000]%Z.
Proof.
  assert (E : Split mixedTimes Localdev.SPACE
              = ["fresh"; "stale"; "stale"; "stale"])
    by (vm_compute; reflexivity).
  rewrite E. repeat (constructor; [vm_compute; reflexivity|]). constructor.
Qed.




(** A line for service ["web"] leaves the file of service ["db"] alone. *)
Lemma other_services_untouched_witness :
  openFiles
    (Build.Log timeString canOpen "web" "T" "RUN make"
       (Build.Log timeString canOpen "db" "T" "first" quiet).1).1 !! "db"
  = openFiles (Build.Log timeString canOpen "db" "T" "first" quiet).1 !! "db".
Proof.
  exact (proj1 (other_services_untouched timeString wallClock canOpen
                  "web" "db"
                  (Build.Log timeString canOpen "db" "T" "first" quiet).1
                  ltac:(discriminate))
               "T" "RUN make").
Defined.

(** After the run [churn] the completed layer is out of the map; after the
    run [twoLayers] layer ["a"] has its line. *)
Lemma statuses_after_run_witness :
  currVertexStatuses (after churn quiet) !! "abc" = None
  /\ currVertexStatuses (after twoLayers quiet) !! "a"
     = Some "[T] a 100.00B/100.00B".
Proof.
  split.
  - rewrite (statuses_after_run timeString canOpen "svc" churn quiet
               (after churn quiet) "abc" ltac:(vm_compute; reflexivity)).
    vm_compute. reflexivity.
  - rewrite (statuses_after_run timeString canOpen "svc" twoLayers quiet
               (after twoLayers quiet) "a" ltac:(vm_compute; reflexivity)).
    vm_compute. reflexivity.
Defined.

(** The answer [solve]: the two lines of the vertex, the line of the
    completion, the line of the raw log. *)
Lemma ProcessStatus_appends_witness :
  exists l' : flatfileLogger,
    Build.ProcessStatus timeString wallClock canOpen "svc" solve quiet
    = Returned l' None
    /\ permanent (fileOf "svc" l') =
         ("[now0] exit code 2: LAYERID=sha256:0123" +:+ nl)
           +:+ ("[now1] cached: [2/3] RUN make" +:+ nl)
           +:+ ("[T] abc 100.00B/100.00B" +:+ nl)
           +:+ ("[T] hello" +:+ nl).
Proof.
  assert (Hids : Forall (fun st : @VertexStatus string =>
                           HasPrefix (vs_ID st) "sha256:" = true ->
                           19 <= String.length (vs_ID st))
                        (Statuses solve)).
  { constructor; [intros H; discriminate H|constructor]. }
  destruct (ProcessStatus_appends timeString wallClock canOpen "svc" solve
              quiet ltac:(reflexivity) Hids) as (l' & Hrun & _ & Hp & _).
  exists l'. split; [exact Hrun|]. rewrite Hp. vm_compute. reflexivity.
Defined.

(** The answer [panickingSolve]: the lines of the vertex and of the
    completion are written before the panic, the raw log is not. *)
Lemma ProcessStatus_panics_midway_witness :
  exists l' : flatfileLogger,
    Build.ProcessStatus timeString wallClock canOpen "svc" panickingSolve quiet
    = Panicked l'
    /\ permanent (fileOf "svc" l') =
         ("[now0] exit code 2: LAYERID=sha256:0123" +:+ nl)
           +:+ ("[now1] cached: [2/3] RUN make" +:+ nl)
           +:+ ("[T] abc 100.00B/100.00B" +:+ nl).
Proof.
  assert (Hpre : Forall (fun st : @VertexStatus string =>
                           HasPrefix (vs_ID st) "sha256:" = true ->
                           19 <= String.length (vs_ID st))
                        [status "abc" 100 100 true]).
  { constructor; [intros H; discriminate H|constructor]. }
  destruct (ProcessStatus_panics_midway timeString wallClock canOpen "svc"
              panickingSolve quiet [status "abc" 100 100 true] []
              (status "sha256:abc" 50 100 false)
              ltac:(reflexivity) ltac:(reflexivity) Hpre
              ltac:(reflexivity) ltac:(vm_compute; lia))
    as (l' & Hrun & Hp).
  exists l'. split; [exact Hrun|]. rewrite Hp. vm_compute. reflexivity.
Defined.

(** In a log directory in which no file can be made the answer
    [brokenSolve] gives an error, not the panic of its status id. *)
Lemma ProcessStatus_cannot_open_witness :
  exists l' : flatfileLogger,
    Build.ProcessStatus timeString wallClock readOnly "svc" brokenSolve
      (NewFlatfileLogger true)
    = Returned l'
        (Some (Errorf "Could not status to %s's logs: %s" "svc"
                 (OsError "open" "svc")))
    /\ openFiles l' = ∅ /\ heard l' = [].
Proof.
  destruct (ProcessStatus_cannot_open timeString wallClock readOnly "svc"
              brokenSolve (NewFlatfileLogger true)
              ltac:(reflexivity) ltac:(reflexivity))
    as (l' & Hrun & Hf & _ & Hh).
  exists l'. split; [exact Hrun|]. split; [exact Hf|exact Hh].
Defined.

(** The sample cluster has the four required names. *)
Lemma checkCluster_topology_witness :
  Localdev.checkCluster parseTime mixedCluster
  = Localdev.checkClusterReady parseTime mixedCluster.
Proof.
  apply (proj1 (checkCluster_topology parseTime mixedCluster
                  Localdev.requiredNames ltac:(reflexivity))).
  reflexivity.
Defined.

(** A reply that is not understood, then ["Y"]: two questions, and the
    error of a chosen redeploy; the third reply is not read. *)
Lemma askRedeploy_first_understood_witness :
  Localdev.askRedeploy ["maybe"; "Y"; "n"] 0
  = Localdev.mkResult 2
      (Some "some nodes weren't ready, and you chose to redeploy").
Proof.
  assert (Hjunk : Forall (fun resp => Localdev.understood resp = false)
                         ["maybe"]).
  { constructor; [reflexivity|constructor]. }
  exact (proj2 (askRedeploy_first_understood ["maybe"] 0 Hjunk)
               "Y" ["n"] ltac:(reflexivity)).
Defined.


(** Three environments in two orders, and the prefix ["pr"] *)
Lemma autocomplete_order_independent_witness :
  Commands.environmentCommandAutocomplete
    (complete ["pr"] ["dev"; "prod"; "preview"])
  = Commands.environmentCommandAutocomplete
      (complete ["pr"] ["preview"; "dev"; "prod"]).
Proof.
  apply autocomplete_order_independent; [reflexivity|reflexivity|].
  intros path. unfold complete. cbn [Commands.environments].
  destruct (String.eqb path "sanic.yaml"); constructor.
  apply (Permutation_cons_append ["dev"; "prod"] "preview").
Defined.

(** Two candidates each: the positions ["0"] and ["1"], whatever the
    names. *)
Lemma autocomplete_writes_positions_witness :
  Commands.environmentCommandAutocomplete (complete [] ["dev"; "prod"])
  = ["0" +:+ nl; "1" +:+ nl]
  /\ Commands.environmentCommandAutocomplete
       (complete ["s"] ["staging"; "sandbox"; "dev"])
     = Commands.environmentCommandAutocomplete (complete [] ["dev"; "prod"]).
Proof.
  destruct (autocomplete_writes_positions
              (complete [] ["dev"; "prod"])
              (complete ["s"] ["staging"; "sandbox"; "dev"])
              "sanic.yaml" "sanic.yaml" ["dev"; "prod"]
              ["staging"; "sandbox"; "dev"]
              ltac:(vm_compute; lia) ltac:(vm_compute; lia)
              ltac:(reflexivity) ltac:(reflexivity)
              ltac:(reflexivity) ltac:(reflexivity)
              ltac:(vm_compute; reflexivity)
              ltac:(vm_compute; lia)) as [H1 H2].
  split; [|exact H2]. rewrite H1. vm_compute. reflexivity.
Defined.

End Samples.
